(** * matrix-appservice-irc: membership and event reconciliation

    A shallow embedding of the reconciliation core of the bridge:
    - [MembershipQueue]        src/util/MembershipQueue.ts (matrix-bot-sdk variant)
    - [MembershipQueueBridge]  the second MembershipQueue of the repository
                               (matrix-appservice-bridge variant)
    - [PublicitySyncer]        src/bridge/PublicitySyncer.ts
    - [IrcHandler]             the IrcHandler class (leave queue, kicks, parts,
                               joins, topics, PM rooms, mention cache, counters)
    - [IdentSrv]               the ident server of src/irc/Ident.ts

    Remote collaborators (the homeserver, the data store) are modelled as
    oracles: a function from the call that is made to its response.  The
    delay of [setTimeout] is recorded without its duration, which is random
    in the source.  A name that a file reads and does not bind, or a method
    that a value does not have, is modelled as the error JavaScript
    throws. *)

From Stdlib Require Import ZArith String Ascii List Lia Bool.
From stdpp Require Import gmap strings list fin_maps pretty.
Import ListNotations.
Open Scope Z_scope.
Open Scope string_scope.

(** ** JavaScript values shared by all components *)

(** The error object a rejected homeserver call carries: [ex.errcode] and
    [ex.httpStatus], either of which may be [undefined]. *)
Record MatrixError := mkError {
  errcode : option string;
  httpStatus : option Z;
}.

(** The settlement of the promise returned by a remote call. *)
Inductive Response :=
| Resolved
| Rejected (ex : MatrixError).

(** Truthiness of a [string | undefined]: [undefined] and [""] are falsy. *)
Definition truthy (s : option string) : bool :=
  match s with
  | Some s => negb (String.eqb s "")
  | None => false
  end.

(** [a || b] on [string | undefined]. *)
Definition js_or (a b : option string) : option string :=
  if truthy a then a else b.

(** [ex.errcode === "M_FORBIDDEN"] *)
Definition errcode_is_forbidden (ex : MatrixError) : bool :=
  match errcode ex with
  | Some c => String.eqb c "M_FORBIDDEN"
  | None => false
  end.

(** [ex.httpStatus === n] *)
Definition httpStatus_is (ex : MatrixError) (n : Z) : bool :=
  match httpStatus ex with
  | Some s => Z.eqb s n
  | None => false
  end.

(** A homeserver failure that is neither a permission denial nor a client
    error: the running example of a transient error. *)
Definition transient_error : MatrixError :=
  {| errcode := Some "M_UNKNOWN"; httpStatus := Some 500 |}.

(** ** MembershipQueue (src/util/MembershipQueue.ts) *)

Module MembershipQueue.

Definition CONCURRENT_ROOM_LIMIT : Z := 8.
Definition ATTEMPTS_LIMIT : Z := 10.

Inductive ItemType := join_type | leave_type.

(** [QueueUserItem], without the logging context [req]. *)
Record QueueUserItem := mkItem {
  type : ItemType;
  kickUser : option string;
  reason : option string;
  attempts : Z;
  roomId : string;
  userId : option string;
  retry : bool;
}.

(** The calls [serviceQueue] makes on an intent; [intent = None] is
    [appservice.botIntent]. *)
Inductive Call :=
| joinRoom (intent : option string) (room : string)
| kickUserCall (intent : option string) (user : option string) (room : string)
               (why : option string)
| leaveRoom (intent : option string) (room : string).

(** What one run of [serviceQueue] did: the call, whether its promise was
    awaited, and how the run ended. *)
Inductive Serviced :=
| Finished                              (* the handler's promise resolved *)
| Rethrown (ex : MatrixError)           (* [throw ex]: the item is given up *)
| Requeued (next : QueueUserItem).      (* slept, then [queueMembership(next)] *)

Record Run := mkRun {
  call : Call;
  awaited : bool;
  outcome : Serviced;
}.

(** [join(roomId, userId, req, retry = true)] builds this item. *)
Definition join (room : string) (user : option string) (retry : bool) : QueueUserItem :=
  {| type := join_type; kickUser := None; reason := None; attempts := 0;
     roomId := room; userId := user; retry := retry |}.

(** [leave(roomId, userId, req, retry = true, reason?, kickUser?)] *)
Definition leave (room user : string) (retry : bool)
           (why kick : option string) : QueueUserItem :=
  {| type := leave_type; kickUser := kick; reason := why; attempts := 0;
     roomId := room; userId := Some user; retry := retry |}.

(** [s.charCodeAt(0)] summed over the room id, modulo the lane count. *)
Definition hashRoomId (room : string) : Z :=
  fold_left (fun a b => a + b)
            (map (fun c => Z.of_nat (Ascii.nat_of_ascii c)) (list_ascii_of_string room)) 0
  mod CONCURRENT_ROOM_LIMIT.

Definition shouldRetry (ex : MatrixError) (attempts : Z) : bool :=
  negb (Z.eqb attempts ATTEMPTS_LIMIT
        || errcode_is_forbidden ex
        || httpStatus_is ex 403).

(** The [catch] block of [serviceQueue]. *)
Definition onFailure (item : QueueUserItem) (ex : MatrixError) : Serviced :=
  if negb (shouldRetry ex (attempts item)) then Rethrown ex
  else Requeued {| type := type item; kickUser := kickUser item; reason := reason item;
                   attempts := attempts item + 1;
                   roomId := roomId item; userId := userId item; retry := retry item |}.

(** [serviceQueue(item)].  Only the join is awaited inside the [try]; the
    kick and the leave are started and their promises dropped, so their
    rejection never reaches the [catch]. *)
Definition serviceQueue (respond : Call -> Response) (item : QueueUserItem) : Run :=
  let intentUserId := js_or (kickUser item) (userId item) in
  let intent := if truthy intentUserId then intentUserId else None in
  match type item with
  | join_type =>
      let c := joinRoom intent (roomId item) in
      {| call := c; awaited := true;
         outcome := match respond c with
                    | Resolved => Finished
                    | Rejected ex => onFailure item ex
                    end |}
  | leave_type =>
      if truthy (kickUser item)
      then {| call := kickUserCall intent (userId item) (roomId item) (reason item);
              awaited := false; outcome := Finished |}
      else {| call := leaveRoom intent (roomId item);
              awaited := false; outcome := Finished |}
  end.

(** The life of an item in the queue: a run that ends in
    [queueMembership(next)] is followed by the run of [next].  [env n]
    answers the call of the [n]-th run; [fuel] bounds the runs unrolled. *)
Fixpoint lifecycle (fuel n : nat) (env : nat -> Call -> Response)
         (item : QueueUserItem) : list Run :=
  match fuel with
  | O => []
  | S fuel' =>
      let r := serviceQueue (env n) item in
      r :: match outcome r with
           | Requeued next => lifecycle fuel' (S n) env next
           | _ => []
           end
  end.

Definition is_requeued (r : Run) : bool :=
  match outcome r with Requeued _ => true | _ => false end.

(** How many times the item was put back on the queue. *)
Definition requeues (runs : list Run) : nat :=
  List.length (List.filter is_requeued runs).

(** The item with its [retry] flag replaced, and an outcome with the
    re-enqueued item mapped. *)
Definition with_retry (b : bool) (item : QueueUserItem) : QueueUserItem :=
  {| type := type item; kickUser := kickUser item; reason := reason item;
     attempts := attempts item; roomId := roomId item; userId := userId item;
     retry := b |}.

Definition map_requeued (f : QueueUserItem -> QueueUserItem) (o : Serviced) : Serviced :=
  match o with
  | Requeued next => Requeued (f next)
  | other => other
  end.

End MembershipQueue.

(** ** The repository's second MembershipQueue (matrix-appservice-bridge) *)

Module MembershipQueueBridge.

Definition CONCURRENT_ROOM_LIMIT : Z := 8.
Definition ATTEMPTS_LIMIT : Z := 10.

Inductive ItemType := join_type | leave_type.

Record QueueUserItem := mkItem {
  type : ItemType;
  kickUser : option string;
  reason : option string;
  attempts : Z;
  roomId : string;
  userId : option string;
  retry : bool;
}.

(** [intent.join(roomId)], [intent.kick(roomId, userId || "", reason)] and
    [intent.leave(roomId, userId || "", reason)], with
    [intent = bridge.getIntent(kickUser || userId)]. *)
Inductive Call :=
| intent_join (intent : option string) (room : string)
| intent_kick (intent : option string) (room user : string) (why : option string)
| intent_leave (intent : option string) (room user : string) (why : option string).

Inductive Serviced :=
| Finished
| Rethrown (ex : MatrixError)
| Requeued (next : QueueUserItem).

Record Run := mkRun {
  call : Call;
  awaited : bool;
  outcome : Serviced;
}.

Definition join (room : string) (user : option string) (retry : bool) : QueueUserItem :=
  {| type := join_type; kickUser := None; reason := None; attempts := 0;
     roomId := room; userId := user; retry := retry |}.

Definition leave (room user : string) (retry : bool)
           (why kick : option string) : QueueUserItem :=
  {| type := leave_type; kickUser := kick; reason := why; attempts := 0;
     roomId := room; userId := Some user; retry := retry |}.

Definition hashRoomId (room : string) : Z :=
  fold_left (fun a b => a + b)
            (map (fun c => Z.of_nat (Ascii.nat_of_ascii c)) (list_ascii_of_string room)) 0
  mod CONCURRENT_ROOM_LIMIT.

Definition shouldRetry (ex : MatrixError) (attempts : Z) : bool :=
  negb (Z.eqb attempts ATTEMPTS_LIMIT
        || errcode_is_forbidden ex
        || httpStatus_is ex 403).

(** The [catch] block: after the delay, [this.queueMembership(item)] with
    the item as it was received. *)
Definition onFailure (item : QueueUserItem) (ex : MatrixError) : Serviced :=
  if negb (shouldRetry ex (attempts item)) then Rethrown ex
  else Requeued item.

(** [userId || ""] *)
Definition userId_or_empty (u : option string) : string :=
  match js_or u (Some "") with Some s => s | None => "" end.

Definition serviceQueue (respond : Call -> Response) (item : QueueUserItem) : Run :=
  let intent := js_or (kickUser item) (userId item) in
  let c := match type item with
           | join_type => intent_join intent (roomId item)
           | leave_type =>
               if truthy (kickUser item)
               then intent_kick intent (roomId item) (userId_or_empty (userId item)) (reason item)
               else intent_leave intent (roomId item) (userId_or_empty (userId item)) (reason item)
           end in
  {| call := c; awaited := true;
     outcome := match respond c with
                | Resolved => Finished
                | Rejected ex => onFailure item ex
                end |}.

Fixpoint lifecycle (fuel n : nat) (env : nat -> Call -> Response)
         (item : QueueUserItem) : list Run :=
  match fuel with
  | O => []
  | S fuel' =>
      let r := serviceQueue (env n) item in
      r :: match outcome r with
           | Requeued next => lifecycle fuel' (S n) env next
           | _ => []
           end
  end.

Definition is_requeued (r : Run) : bool :=
  match outcome r with Requeued _ => true | _ => false end.

Definition requeues (runs : list Run) : nat :=
  List.length (List.filter is_requeued runs).

(** The item with its [retry] flag replaced, and an outcome with the
    re-enqueued item mapped. *)
Definition with_retry (b : bool) (item : QueueUserItem) : QueueUserItem :=
  {| type := type item; kickUser := kickUser item; reason := reason item;
     attempts := attempts item; roomId := roomId item; userId := userId item;
     retry := b |}.

Definition map_requeued (f : QueueUserItem -> QueueUserItem) (o : Serviced) : Serviced :=
  match o with
  | Requeued next => Requeued (f next)
  | other => other
  end.

End MembershipQueueBridge.

(** ** PublicitySyncer (src/bridge/PublicitySyncer.ts) *)

Module PublicitySyncer.

Inductive Visibility := private | public.

Definition Visibility_eqb (a b : Visibility) : bool :=
  match a, b with
  | private, private | public, public => true
  | _, _ => false
  end.

(** What the syncer reads of an [IrcServer]: [server.domain] and
    [server.getNetworkId()]. *)
Record IrcServer := mkServer {
  domain : string;
  networkId : string;
}.

(** [this.visibilityMap] *)
Record VisibilityMap := mkVisibilityMap {
  mappings : gmap string (list string);
  networkToRooms : gmap string (list string);
  channelIsSecret : gmap string bool;
  roomVisibilities : gmap string Visibility;
}.

(** The initial value of the field. *)
Definition emptyVisibilityMap : VisibilityMap :=
  {| mappings := ∅; networkToRooms := ∅; channelIsSecret := ∅; roomVisibilities := ∅ |}.

(** A row of the [rooms] table, as [getMatrixRoomsForChannel] selects it. *)
Record RoomRow := mkRow {
  irc_domain : string;
  irc_channel : string;
  room_id : string;
}.

Record Store := mkStore {
  rooms : list RoomRow;
  visibility : gmap string Visibility;
}.

(** [SELECT room_id ... WHERE irc_domain = $1 AND irc_channel = $2], then
    [m.getId()] on every room. *)
Definition getMatrixRoomsForChannel (st : Store) (server : IrcServer)
           (channel : string) : list string :=
  map room_id
      (List.filter (fun r => String.eqb (irc_domain r) (domain server)
                             && String.eqb (irc_channel r) channel)
                   (rooms st)).

(** The channels a room is mapped to on a server (the reverse lookup of
    the same table). *)
Definition channelsOfRoom (st : Store) (server : IrcServer) (room : string) : list string :=
  map irc_channel
      (List.filter (fun r => String.eqb (irc_domain r) (domain server)
                             && String.eqb (room_id r) room)
                   (rooms st)).

(** Modelled from the spec: [getRoomsVisibility] and [setRoomVisibility]
    are not implemented by the data store in the source tree; the spec has
    them as the store's "room visibility cache read/write".  The read
    returns the stored visibility of the rooms asked for. *)
Definition getRoomsVisibility (st : Store) (roomIds : list string) : gmap string Visibility :=
  filter (fun kv => bool_decide (kv.1 ∈ roomIds)) (visibility st).

Definition setRoomVisibility (st : Store) (room : string) (v : Visibility) : Store :=
  {| rooms := rooms st; visibility := <[room := v]> (visibility st) |}.

(** [getIRCVisMapKey(networkId, channel)] *)
Definition getIRCVisMapKey (network channel : string) : string :=
  network ++ " " ++ channel.

(** What the syncer does to the outside world, in order. *)
Inductive Effect :=
| log_info_solved (channel network : string) (correctState : Visibility)
| call_setRoomDirectoryVisibilityAppService (network room : string) (v : Visibility)
| call_setRoomVisibility (room : string) (v : Visibility)
| log_error_setRoomDirectoryVisibility
| log_error_failed_to_sync (channel : string).

(** What a JavaScript function can throw here. *)
Inductive Thrown :=
| TypeError                 (* property access on [undefined] *)
| Error (message : string)  (* [throw new Error(message)] *)
| Remote (ex : MatrixError).

(** The syncer, the store and the trace of effects. *)
Record World := mkWorld {
  vmap : VisibilityMap;
  store : Store;
  effects : list Effect;
}.

Definition emit (e : Effect) (w : World) : World :=
  {| vmap := vmap w; store := store w; effects := (effects w ++ [e])%list |}.

Definition set_vmap (m : VisibilityMap) (w : World) : World :=
  {| vmap := m; store := store w; effects := effects w |}.

Definition set_store (s : Store) (w : World) : World :=
  {| vmap := vmap w; store := s; effects := effects w |}.

(** [s.split(' ')[0]]: the text before the first space. *)
Fixpoint first_word (s : string) : string :=
  match s with
  | EmptyString => EmptyString
  | String c rest => if Ascii.eqb c " "%char then EmptyString else String c (first_word rest)
  end.

(** [this.visibilityMap.mappings[roomId][0].split(' ')[0]]; [None] stands
    for the TypeError of reading a property of [undefined].  (A room id
    starts with [!], so it names no property inherited from
    [Object.prototype]; such a property has no [0] either.) *)
Definition networkIdOfFirstMapping (m : gmap string (list string)) (room : string)
  : option string :=
  match m !! room with
  | None => None
  | Some l => match l with
              | [] => None
              | first :: _ => Some (first_word first)
              end
  end.

(** [networkToRooms[key]] is created if missing, then the room is pushed. *)
Definition pushNetworkToRooms (key room : string) (m : VisibilityMap) : VisibilityMap :=
  {| mappings := mappings m;
     networkToRooms := <[key := (default [] (networkToRooms m !! key) ++ [room])%list]> (networkToRooms m);
     channelIsSecret := channelIsSecret m;
     roomVisibilities := roomVisibilities m |}.

(** [this.visibilityMap.channelIsSecret[channel] ? 'private' : 'public'] *)
Definition correctStateOf (m : VisibilityMap) (channel : string) : Visibility :=
  match channelIsSecret m !! channel with
  | Some true => private
  | Some false | None => public
  end.

(** The state every room starts from ("assume private by default"),
    overridden by what the store has. *)
Definition currentStatesOf (st : Store) (roomIds : list string) : gmap string Visibility :=
  getRoomsVisibility st roomIds ∪ list_to_map (map (fun r => (r, private)) roomIds).

Section Solve.
(** How the homeserver and the store answer the two writes. *)
Variable respond : Effect -> Response.

(** The body of the per-room task of [solveVisibility]; the result is the
    rejection of the task's promise, if any. *)
Definition updateRoom (correctState : Visibility)
           (currentStates : gmap string Visibility)
           (room : string) (w : World) : option Thrown * World :=
  let currentState := currentStates !! room in
  match networkIdOfFirstMapping (mappings (vmap w)) room with
  | None => (Some TypeError, w)
  | Some network =>
      if match currentState with
         | Some c => Visibility_eqb c correctState
         | None => false
         end
      then (None, w)
      else
        let c1 := call_setRoomDirectoryVisibilityAppService network room correctState in
        let w := emit c1 w in
        match respond c1 with
        | Rejected _ => (None, emit log_error_setRoomDirectoryVisibility w)
        | Resolved =>
            let c2 := call_setRoomVisibility room correctState in
            let w := emit c2 w in
            match respond c2 with
            | Rejected _ => (None, emit log_error_setRoomDirectoryVisibility w)
            | Resolved =>
                let w := set_store (setRoomVisibility (store w) room correctState) w in
                let m := vmap w in
                (None,
                 set_vmap {| mappings := mappings m;
                             networkToRooms := networkToRooms m;
                             channelIsSecret := channelIsSecret m;
                             roomVisibilities := <[room := correctState]> (roomVisibilities m) |}
                          w)
            end
        end
  end.

(** [Promise.all(roomIds.map(async (roomId) => ...))]: every task is
    started; the result rejects with the first rejection. *)
Fixpoint updateRooms (correctState : Visibility)
         (currentStates : gmap string Visibility)
         (roomIds : list string) (w : World) : option Thrown * World :=
  match roomIds with
  | [] => (None, w)
  | room :: rest =>
      let '(r, w) := updateRoom correctState currentStates room w in
      let '(rs, w) := updateRooms correctState currentStates rest w in
      (match r with Some t => Some t | None => rs end, w)
  end.

(** [solveVisibility(channel, server)]: the rejection of the returned
    promise ([None] when it resolves) and the world it leaves. *)
Definition solveVisibility (channel : string) (server : IrcServer) (w : World)
  : option Thrown * World :=
  let roomIds := getMatrixRoomsForChannel (store w) server channel in
  let m := vmap w in
  let m := {| mappings := ∅;
              networkToRooms := networkToRooms m;
              channelIsSecret := channelIsSecret m;
              roomVisibilities := roomVisibilities m |} in
  let key := getIRCVisMapKey (networkId server) channel in
  let m := fold_left (fun m room => pushNetworkToRooms key room m) roomIds m in
  let w := set_vmap m w in
  let currentStates := currentStatesOf (store w) roomIds in
  let correctState := correctStateOf (vmap w) channel in
  let w := emit (log_info_solved channel (networkId server) correctState) w in
  updateRooms correctState currentStates roomIds w.

(** The [value] argument of [updateVisibilityMap]: a boolean for a mode,
    a string for a room visibility. *)
Inductive Value := VBool (b : bool) | VString (s : string).

Definition visibilityOfString (s : string) : option Visibility :=
  if String.eqb s "private" then Some private
  else if String.eqb s "public" then Some public
  else None.

(** [if (hasChanged) this.solveVisibility(...).catch(log.error)] *)
Definition solveAndCatch (channel : string) (server : IrcServer) (w : World) : World :=
  let '(r, w) := solveVisibility channel server w in
  match r with
  | Some _ => emit (log_error_failed_to_sync channel) w
  | None => w
  end.

(** [updateVisibilityMap(isMode, key, value, channel, server)]: what it
    throws, if anything, and the world it leaves. *)
Definition updateVisibilityMap (isMode : bool) (key : string) (value : Value)
           (channel : string) (server : IrcServer) (w : World)
  : option Thrown * World :=
  let m := vmap w in
  if isMode then
    match value with
    | VString _ => (Some (Error "+s state must be indicated with a boolean"), w)
    | VBool b =>
        if match channelIsSecret m !! key with
           | Some old => Bool.eqb old b
           | None => false
           end
        then (None, w)
        else
          let m := {| mappings := mappings m;
                      networkToRooms := networkToRooms m;
                      channelIsSecret := <[key := b]> (channelIsSecret m);
                      roomVisibilities := roomVisibilities m |} in
          (None, solveAndCatch channel server (set_vmap m w))
    end
  else
    match value with
    | VBool _ => (Some (Error "Room visibility must = private | public"), w)
    | VString s =>
        match visibilityOfString s with
        | None => (Some (Error "Room visibility must = private | public"), w)
        | Some v =>
            if match roomVisibilities m !! key with
               | Some old => Visibility_eqb old v
               | None => false
               end
            then (None, w)
            else
              let m := {| mappings := mappings m;
                          networkToRooms := networkToRooms m;
                          channelIsSecret := channelIsSecret m;
                          roomVisibilities := <[key := v]> (roomVisibilities m) |} in
              (None, solveAndCatch channel server (set_vmap m w))
        end
    end.
End Solve.

(** The world [solveVisibility] reaches before the per-room tasks start. *)
Definition solving (channel : string) (server : IrcServer) (w : World) : World :=
  let roomIds := getMatrixRoomsForChannel (store w) server channel in
  let m := vmap w in
  emit (log_info_solved channel (networkId server) (correctStateOf m channel))
       (set_vmap
          (fold_left (fun m room => pushNetworkToRooms
                                      (getIRCVisMapKey (networkId server) channel) room m)
                     roomIds
                     {| mappings := ∅; networkToRooms := networkToRooms m;
                        channelIsSecret := channelIsSecret m;
                        roomVisibilities := roomVisibilities m |})
          w).

(** A bridged network, a room bridged to one secret channel, and a room
    bridged to a secret and a public channel. *)
Definition example_server : IrcServer :=
  {| domain := "irc.example.org"; networkId := "example" |}.

Definition one_channel_store : Store :=
  {| rooms := [ {| irc_domain := "irc.example.org"; irc_channel := "#secret";
                   room_id := "!room:hs" |} ];
     visibility := ∅ |}.

Definition two_channel_store : Store :=
  {| rooms := [ {| irc_domain := "irc.example.org"; irc_channel := "#secret";
                   room_id := "!room:hs" |};
                {| irc_domain := "irc.example.org"; irc_channel := "#open";
                   room_id := "!room:hs" |} ];
     visibility := ∅ |}.

Definition fresh_world (st : Store) : World :=
  {| vmap := emptyVisibilityMap; store := st; effects := [] |}.

(** *** Requesting the modes of the tracked channels *)

(** [[...new Set(channels)]]: the channels in the order of their first
    occurrence. *)
Fixpoint js_set_from (seen l : list string) : list string :=
  match l with
  | [] => []
  | x :: rest =>
      if existsb (String.eqb x) seen then js_set_from seen rest
      else x :: js_set_from (x :: seen) rest
  end.

Definition js_set (l : list string) : list string := js_set_from [] l.

Inductive ModeEffect :=
| call_mode (chan : string)                  (* [botClient.mode(chan)] *)
| log_error_mode (chan : string).            (* "Could not request mode of ..." *)

Section Modes.
(** Whether [getBotClient(server)] yields a client, and how the network
    answers a mode request. *)
Variable botClientAvailable : bool.
Variable modeAnswer : string -> Response.

(** [initModeForChannel(server, chan)]: never rejects. *)
Definition initModeForChannel (chan : string) : list ModeEffect :=
  if botClientAvailable then
    match modeAnswer chan with
    | Resolved => [call_mode chan]
    | Rejected _ => [call_mode chan; log_error_mode chan]
    end
  else [log_error_mode chan].

(** [initModes(server)], [channels] being what
    [getTrackedChannelsForServer(server.domain)] returned. *)
Definition initModes (channels : list string) : list ModeEffect :=
  flat_map initModeForChannel (js_set channels).
End Modes.

Definition requested_modes (es : list ModeEffect) : list string :=
  flat_map (fun e => match e with call_mode c => [c] | _ => [] end) es.

(** The writes this path can issue. *)
Definition is_visibility_write (e : Effect) : bool :=
  match e with
  | call_setRoomDirectoryVisibilityAppService _ _ _ | call_setRoomVisibility _ _ => true
  | _ => false
  end.

(** The visibility [solveVisibility] reports to have solved for. *)
Definition solved_states (es : list Effect) : list Visibility :=
  flat_map (fun e => match e with
                     | log_info_solved _ _ v => [v]
                     | _ => []
                     end) es.

End PublicitySyncer.

(** ** IrcHandler: events from IRC reconciled into Matrix *)

Module IrcHandler.

Definition NICK_USERID_CACHE_MAX : Z := 512.
Definition LEAVE_CONCURRENCY : Z := 10.
Definition LEAVE_MAX_ATTEMPTS : Z := 10.

(** A [MatrixRoom] of matrix-appservice-bridge: [getId()] and the [topic]
    it carries in its serialised data. *)
Record MatrixRoom := mkRoom {
  getId : string;
  topic : option string;
}.

Record IrcServer := mkServer {
  domain : string;
  botNickname : string;
}.

Record IrcUser := mkIrcUser {
  nick : string;
  isVirtual : bool;
}.

(** What the handler reads of a [BridgedClient]. *)
Record BridgedClient := mkClient {
  clientUserId : string;
  isBot : bool;
}.

(** The calls made on the Matrix side; [intent = None] is the bot's
    intent, [bridge.getIntent()]. *)
Inductive Call :=
| intent_kick (intent : option string) (room user : string) (why : option string)
| intent_leave (intent : option string) (room : string)
| removePowerLevels (room : string) (users : list string)
| intent_setRoomTopic (intent : option string) (room text : string)
| upsertMatrixRoom (room : MatrixRoom).

Definition example_server : IrcServer :=
  {| domain := "irc.example.org"; botNickname := "bridgebot" |}.

(** *** The names the handler's file does not bind *)

(** [Promise] is the built-in constructor in this file: bluebird is
    imported under the name [Bluebird], which nothing here uses.  The
    built-in constructor has no [delay], so [Promise.delay] reads
    [undefined] and calling it throws a TypeError. *)
Definition Promise_delay : option unit := None.

(** Likewise the promise of an [async] function has no [isRejected]. *)
Inductive PromiseState :=
| pending
| fulfilled (room : MatrixRoom)
| rejected.

Definition isRejected : option (PromiseState -> bool) := None.


(** *** The leave queue *)

(** An item of [leaveQueue]; [id], [kickReason], [deop] and [attempts] are
    optional in the source ([deop] being read for its truthiness only). *)
Record LeaveItem := mkLeaveItem {
  id : option string;
  rooms : list MatrixRoom;
  userId : string;
  shouldKick : bool;
  kickReason : option string;
  retry : bool;
  deop : bool;
  attempts : option Z;
}.

(** The key of a re-enqueued item, [item.id + item.attempts], kept as its
    two operands. *)
Definition RequeueKey : Type := option string * Z.

Inductive LeaveEvent :=
| called (c : Call) (r : Response)
| log_not_retrying
| log_deop_failed
| delayed
| log_hit_attempt_limit
| enqueued (key : RequeueKey) (item : LeaveItem).

(** The ways out of [handleLeaveQueue]. *)
Inductive LeaveExit :=
| return_no_retry_rooms     (* [if (retryRooms.length < 0) return] *)
| throw_TypeError           (* [Promise.delay(...)], which is not a function *)
| return_attempt_limit      (* [if (item.attempts >= LEAVE_MAX_ATTEMPTS) return] *)
| loop_finished.

(** The locals of one invocation: [retryRooms], the mutated
    [item.attempts], and what happened so far. *)
Record LeaveRun := mkLeaveRun {
  retryRooms : list MatrixRoom;
  attemptsNow : Z;
  trace : list LeaveEvent;
}.

Definition record (e : LeaveEvent) (s : LeaveRun) : LeaveRun :=
  {| retryRooms := retryRooms s; attemptsNow := attemptsNow s;
     trace := (trace s ++ [e])%list |}.

Definition is_called (e : LeaveEvent) : bool :=
  match e with called _ _ => true | _ => false end.

(** The number of remote calls made so far: the oracle's clock. *)
Definition calls_made (s : LeaveRun) : nat :=
  List.length (List.filter is_called (trace s)).

(** [ex.httpStatus - 400 > 0 && ex.httpStatus - 400 < 100]; with
    [httpStatus] undefined both comparisons are on NaN and false. *)
Definition is400 (ex : MatrixError) : bool :=
  match httpStatus ex with
  | Some s => Z.ltb 0 (s - 400) && Z.ltb (s - 400) 100
  | None => false
  end.

(** [!item.retry || ex.errcode === "M_FORBIDDEN" || is400] *)
Definition notRetrying (item : LeaveItem) (ex : MatrixError) : bool :=
  negb (retry item) || errcode_is_forbidden ex || is400 ex.

Section LeaveHandler.
(** [env n c] answers call [c] when [n] calls were made before it. *)
Variable env : nat -> Call -> Response.

Definition request (c : Call) (s : LeaveRun) : Response * LeaveRun :=
  let r := env (calls_made s) c in (r, record (called c r) s).

(** The statements after the [try]/[catch] of the loop body; [Some] is a
    way out of the handler.  [await Promise.delay(...)] comes first after
    the guard on [retryRooms]: the call throws, outside any [try], and the
    handler's promise is rejected.  The statements behind it are kept as
    written: the re-enqueued item is the spread of [item] with its [rooms]
    replaced by the [retryRooms] array itself. *)
Definition afterAttempt (item : LeaveItem) (s : LeaveRun) : option LeaveExit * LeaveRun :=
  if Z.ltb (Z.of_nat (List.length (retryRooms s))) 0
  then (Some return_no_retry_rooms, s)
  else
    match Promise_delay with
    | None => (Some throw_TypeError, s)
    | Some _ =>
        let s := record delayed s in
        let s := {| retryRooms := retryRooms s; attemptsNow := attemptsNow s + 1;
                    trace := trace s |} in
        if Z.geb (attemptsNow s) LEAVE_MAX_ATTEMPTS
        then (Some return_attempt_limit, record log_hit_attempt_limit s)
        else (None,
              record (enqueued (id item, attemptsNow s)
                               {| id := id item; rooms := retryRooms s;
                                  userId := userId item; shouldKick := shouldKick item;
                                  kickReason := kickReason item; retry := retry item;
                                  deop := deop item; attempts := Some (attemptsNow s) |})
                     s)
    end.

(** One iteration of [for (const room of item.rooms)]. *)
Definition leaveStep (item : LeaveItem) (room : MatrixRoom) (s : LeaveRun)
  : option LeaveExit * LeaveRun :=
  let roomId := getId room in
  let c := if shouldKick item
           then intent_kick None roomId (userId item) (kickReason item)
           else intent_leave (Some (userId item)) roomId in
  let '(r, s) := request c s in
  match r with
  | Resolved =>
      let s := if deop item
               then let '(r2, s) := request (removePowerLevels roomId [userId item]) s in
                    match r2 with
                    | Resolved => s
                    | Rejected _ => record log_deop_failed s
                    end
               else s in
      afterAttempt item s
  | Rejected ex =>
      if notRetrying item ex
      then (None, record log_not_retrying s)           (* [continue] *)
      else afterAttempt item
             {| retryRooms := (retryRooms s ++ [room])%list;
                attemptsNow := attemptsNow s; trace := trace s |}
  end.

Fixpoint leaveLoop (item : LeaveItem) (todo : list MatrixRoom) (s : LeaveRun)
  : LeaveExit * LeaveRun :=
  match todo with
  | [] => (loop_finished, s)
  | room :: rest =>
      match leaveStep item room s with
      | (Some out, s) => (out, s)
      | (None, s) => leaveLoop item rest s
      end
  end.

(** [handleLeaveQueue(item)] *)
Definition handleLeaveQueue (item : LeaveItem) : LeaveExit * LeaveRun :=
  leaveLoop item (rooms item)
            {| retryRooms := []; attemptsNow := default 0 (attempts item); trace := [] |}.
End LeaveHandler.

(** The items an invocation put back on the queue, and its remote calls. *)
Definition enqueued_items (t : list LeaveEvent) : list LeaveItem :=
  flat_map (fun e => match e with enqueued _ i => [i] | _ => [] end) t.

Definition calls_of (t : list LeaveEvent) : list Call :=
  flat_map (fun e => match e with called c _ => [c] | _ => [] end) t.

(** *** Kicks and parts received from IRC *)

Section Membership.
(** The collaborators of [onKick] and [onPart]: the store's room mapping,
    the client pool, and the Matrix user standing for an IRC user. *)
Variable getMatrixRoomsForChannel : IrcServer -> string -> list MatrixRoom.
Variable getBridgedClientByNick : IrcServer -> string -> option BridgedClient.
Variable getMatrixUser : IrcUser -> string.

(** [onKick(req, server, kicker, kickee, chan, reason)]: the key and the
    item it puts on the leave queue, if any. *)
Definition onKick (server : IrcServer) (kicker kickee : IrcUser)
           (chan why : string) : option (string * LeaveItem) :=
  if isVirtual kickee then
    let matrixRooms := getMatrixRoomsForChannel server chan in
    if Nat.eqb (List.length matrixRooms) 0 then None
    else
      match getBridgedClientByNick server (nick kickee) with
      | None => None
      | Some bridgedIrcClient =>
          if isBot bridgedIrcClient then None
          else Some (chan ++ clientUserId bridgedIrcClient,
                     {| id := None;
                        rooms := matrixRooms;
                        userId := clientUserId bridgedIrcClient;
                        shouldKick := true;
                        kickReason := Some (nick kicker ++ " has kicked this user from "
                                            ++ chan ++ " (" ++ why ++ ")");
                        retry := true;
                        deop := false;
                        attempts := None |})
      end
  else
    let matrixUser := getMatrixUser kickee in
    let matrixRooms := getMatrixRoomsForChannel server chan in
    if Nat.eqb (List.length matrixRooms) 0 then None
    else Some (chan ++ matrixUser,
               {| id := None;
                  rooms := matrixRooms;
                  userId := matrixUser;
                  shouldKick := false;
                  kickReason := None;
                  retry := true;
                  deop := true;
                  attempts := None |}).
End Membership.

(** *** Topics *)

(** A row of the [rooms] table: the columns the handler depends on, with
    [matrix_json] reduced to the topic it serialises. *)
Record RoomRow := mkRow {
  origin : string;
  irc_domain : string;
  irc_channel : string;
  room_id : string;
  matrix_topic : option string;
}.















Section TopicHandler.
Variable env : nat -> Call -> Response.
Variable getUserIdFromNick : IrcServer -> string -> string.





End TopicHandler.








Definition always_resolved (n : nat) (c : Call) : Response := Resolved.


(** *** Private-message rooms *)

(** [pmRoomPromises] maps a key to a promise; promises are the cells of
    [promiseTable], named by their index.  [awaiting] is the promise each
    message handler is suspended on at [pmRoom = await p]. *)
Record PmWorld := mkPmWorld {
  pmRoomPromises : gmap string nat;
  promiseTable : list PromiseState;
  awaiting : gmap nat nat;
}.

Inductive PmEvent :=
| createPmRoom_called (toUserId fromUserId : string)
| relayed (message : nat) (room : MatrixRoom)
| relay_failed (message : nat)
| threw_TypeError (message : nat).   (* [p.isRejected()], which is not a function *)

(** [bridgedIrcClient.userId + ' ' + virtualMatrixUser.getId()] *)
Definition pmRoomPromiseId (toUserId fromUserId : string) : string :=
  toUserId ++ " " ++ fromUserId.

(** The [if (!pmRoom)] branch of [onPrivateMessage] up to [await p], run
    for message [m] once the store has reported no PM room.  Nothing in it
    yields: [createPmRoom] runs to its first [await] and returns its
    promise.  In [!p || p.isRejected()] the right operand is evaluated
    whenever a promise is stored, and the call throws: the handler of [m]
    ends there, before [await p]. *)
Definition firstContact (m : nat) (toUserId fromUserId : string) (w : PmWorld)
  : PmWorld * list PmEvent :=
  let pmRoomPromiseId := pmRoomPromiseId toUserId fromUserId in
  let p := pmRoomPromises w !! pmRoomPromiseId in
  let create :=
    let i := List.length (promiseTable w) in
    ({| pmRoomPromises := <[pmRoomPromiseId := i]> (pmRoomPromises w);
        promiseTable := (promiseTable w ++ [pending])%list;
        awaiting := <[m := i]> (awaiting w) |},
     [createPmRoom_called toUserId fromUserId]) in
  match p with
  | None => create
  | Some i =>
      match isRejected with
      | None => (w, [threw_TypeError m])
      | Some isRejected =>
          if isRejected (default pending (promiseTable w !! i))
          then create
          else ({| pmRoomPromises := pmRoomPromises w;
                   promiseTable := promiseTable w;
                   awaiting := <[m := i]> (awaiting w) |},
                [])
      end
  end.

(** [createPmRoom] finishing: its promise, if still pending, is fulfilled
    with the new room or rejected. *)
Definition settle (i : nat) (result : option MatrixRoom) (w : PmWorld) : PmWorld :=
  match promiseTable w !! i with
  | Some pending =>
      {| pmRoomPromises := pmRoomPromises w;
         promiseTable := <[i := match result with
                                | Some room => fulfilled room
                                | None => rejected
                                end]> (promiseTable w);
         awaiting := awaiting w |}
  | _ => w
  end.

(** The continuation of [pmRoom = await p] for message [m]: the message is
    relayed into the room the promise was fulfilled with. *)
Definition resume (m : nat) (w : PmWorld) : PmWorld * list PmEvent :=
  match awaiting w !! m with
  | None => (w, [])
  | Some i =>
      match default pending (promiseTable w !! i) with
      | pending => (w, [])
      | fulfilled room =>
          ({| pmRoomPromises := pmRoomPromises w; promiseTable := promiseTable w;
              awaiting := delete m (awaiting w) |},
           [relayed m room])
      | rejected =>
          ({| pmRoomPromises := pmRoomPromises w; promiseTable := promiseTable w;
              awaiting := delete m (awaiting w) |},
           [relay_failed m])
      end
  end.

(** What the event loop can run next. *)
Inductive PmAction :=
| do_firstContact (m : nat) (toUserId fromUserId : string)
| do_settle (i : nat) (result : option MatrixRoom)
| do_resume (m : nat).

Definition pmStep (a : PmAction) (w : PmWorld) : PmWorld * list PmEvent :=
  match a with
  | do_firstContact m toUserId fromUserId => firstContact m toUserId fromUserId w
  | do_settle i result => (settle i result w, [])
  | do_resume m => resume m w
  end.

Fixpoint pmRun (schedule : list PmAction) (w : PmWorld) : PmWorld * list PmEvent :=
  match schedule with
  | [] => (w, [])
  | a :: rest =>
      let '(w, es) := pmStep a w in
      let '(w, es') := pmRun rest w in
      (w, (es ++ es')%list)
  end.

Definition is_createPmRoom (toUserId fromUserId : string) (e : PmEvent) : bool :=
  match e with
  | createPmRoom_called t f => String.eqb t toUserId && String.eqb f fromUserId
  | _ => false
  end.

Definition creations (toUserId fromUserId : string) (es : list PmEvent) : nat :=
  List.length (List.filter (is_createPmRoom toUserId fromUserId) es).

(** A promise is stored for the pair and the handler of message [m] is not
    suspended. *)
Definition pair_is_stuck (m : nat) (toUserId fromUserId : string) (w : PmWorld) : Prop :=
  (exists i, pmRoomPromises w !! pmRoomPromiseId toUserId fromUserId = Some i)
  /\ awaiting w !! m = None.

(** An action in which the handler of message [m], if it makes first
    contact, does so for the pair. *)
Definition contacts_pair_only (m : nat) (toUserId fromUserId : string) (a : PmAction)
  : bool :=
  match a with
  | do_firstContact m' t f =>
      negb (Nat.eqb m' m) || (String.eqb t toUserId && String.eqb f fromUserId)
  | _ => true
  end.

(** *** The mention cache *)

(** A JavaScript [Map] (and an object used as one) with string keys:
    entries in insertion order. *)
Definition JsMap (V : Type) : Type := list (string * V).

Fixpoint map_get {V} (m : JsMap V) (k : string) : option V :=
  match m with
  | [] => None
  | (k', v) :: rest => if String.eqb k' k then Some v else map_get rest k
  end.

Definition map_has {V} (m : JsMap V) (k : string) : bool :=
  match map_get m k with Some _ => true | None => false end.

(** [set]: an existing key keeps its place. *)
Fixpoint map_set {V} (m : JsMap V) (k : string) (v : V) : JsMap V :=
  match m with
  | [] => [(k, v)]
  | (k', v') :: rest =>
      if String.eqb k' k then (k, v) :: rest else (k', v') :: map_set rest k v
  end.

(** [delete(key)], the key being any JavaScript value: [None] is
    [undefined], which no string key equals. *)
Definition map_delete {V} (m : JsMap V) (k : option string) : JsMap V :=
  match k with
  | None => m
  | Some k => List.filter (fun kv => negb (String.eqb (fst kv) k)) m
  end.

Definition map_size {V} (m : JsMap V) : Z := Z.of_nat (List.length m).

(** [keys()] returns an iterator object over the keys. *)
Record MapIterator := mkIterator {
  remaining : list string;
}.

Definition map_keys {V} (m : JsMap V) : MapIterator :=
  {| remaining := map fst m |}.

(** [iterator[n]]: an iterator has [next], and no indexed property; the
    property read yields [undefined]. *)
Definition iterator_index (it : MapIterator) (n : nat) : option string := None.

Inductive MentionMode := mode_on | mode_off | mode_force_off.

(** The cache key, [`${server.domain}:${channel}`]. *)
Definition cacheKey (server : IrcServer) (channel : string) : string :=
  domain server ++ ":" ++ channel.

Section Mentions.
(** [getNickUserIdMappingForChannel] of the client pool and the
    [mentions] feature of a user ([None]: not set). *)
Variable getNickUserIdMappingForChannel : IrcServer -> string -> JsMap string.
Variable mentionsFeature : string -> option bool.
Variable mentionMode : MentionMode.

(** The body of [for (let nick of nicks)]. *)
Definition filterNick (server : IrcServer) (mapping : JsMap string) (nick : string)
  : JsMap string :=
  if String.eqb nick (botNickname server) then mapping
  else
    match map_get mapping nick with
    | None => mapping
    | Some userId =>
        let feature := mentionsFeature userId in
        let enabled := match feature with
                       | Some true => true
                       | Some false => false
                       | None => match mentionMode with mode_on => true | _ => false end
                       end in
        if enabled then mapping
        else map_set (map_delete mapping (Some nick))
                     ("disabled-matrix-mentions-for-" ++ nick) userId
    end.

(** The mapping computed on a cache miss. *)
Definition computeMapping (server : IrcServer) (channel : string) : JsMap string :=
  let mapping := getNickUserIdMappingForChannel server channel in
  fold_left (filterNick server) (map fst mapping) mapping.

(** The cache lookup of [onMessage]: the mapping used for the message
    and the cache it leaves. *)
Definition lookupMentions (server : IrcServer) (channel : string)
           (cache : JsMap (JsMap string)) : option (JsMap string) * JsMap (JsMap string) :=
  let key := cacheKey server channel in
  if map_has cache key then (map_get cache key, cache)
  else
    match mentionMode with
    | mode_force_off => (None, cache)
    | _ =>
        let mapping := computeMapping server channel in
        let cache := map_set cache key mapping in
        let cache := if Z.ltb NICK_USERID_CACHE_MAX (map_size cache)
                     then map_delete cache (iterator_index (map_keys cache) 0)
                     else cache in
        (Some mapping, cache)
    end.

(** The cache after messages on each of [channels], in order. *)
Definition cacheAfterMessages (server : IrcServer) (channels : list string)
           (cache : JsMap (JsMap string)) : JsMap (JsMap string) :=
  fold_left (fun cache channel => snd (lookupMentions server channel cache)) channels cache.
End Mentions.

(** Channels [#c0], [#c1], ... and a client pool that knows no nick. *)
Definition channel_names (n : nat) : list string :=
  map (fun i : nat => "#c" ++ pretty i) (seq 0 n).

Definition no_nicks (server : IrcServer) (channel : string) : JsMap string := [].

Definition no_feature (user : string) : option bool := None.

(** [invalidateNickUserIdMap(server, channel)] *)
Definition invalidateNickUserIdMap (server : IrcServer) (channel : string)
           (cache : JsMap (JsMap string)) : JsMap (JsMap string) :=
  map_delete cache (Some (cacheKey server channel)).

(** An item re-enqueued, directly or not, while [root] was served.  The
    rooms of a re-enqueued item are an alias of a live array, so only the
    other fields are tied to the parent; the attempt count is the parent's
    current one. *)
Inductive requeued_from (root : LeaveItem) : LeaveItem -> Prop :=
| requeued_root : requeued_from root root
| requeued_again (parent : LeaveItem) (rs : list MatrixRoom) (n : Z) :
    requeued_from root parent ->
    requeued_from root
      {| id := id parent; rooms := rs; userId := userId parent;
         shouldKick := shouldKick parent; kickReason := kickReason parent;
         retry := retry parent; deop := deop parent; attempts := Some n |}.

(** *** Leaving rooms: parts *)

(** How [onPart] ends. *)
Inductive PartResult :=
| part_not_mirrored                 (* "Server doesn't mirror parts." *)
| part_no_rooms                     (* no mapped matrix rooms *)
| part_ERR_VIRTUAL_USER
| part_ERR_DROPPED
| part_TypeError                    (* [inChannel] read off [undefined] *)
| part_debounced                    (* the quit debouncer said not to bridge *)
| part_enqueued (key : string) (item : LeaveItem).

Section Parts.
(** The collaborators of [onPart]: the server's sync policy, the store,
    the client pool, [BridgedClient.inChannel], the Matrix user of an IRC
    user, and the quit debouncer with its answer. *)
Variable shouldSyncMembershipToMatrix : IrcServer -> string -> string -> bool.
Variable getMatrixRoomsForChannel : IrcServer -> string -> list MatrixRoom.
Variable getBridgedClientByNick : IrcServer -> string -> option BridgedClient.
Variable inChannel : BridgedClient -> string -> bool.
Variable getMatrixUser : IrcUser -> string.
Variable shouldDebounceQuits : IrcServer -> bool.
Variable debounceQuit : IrcServer -> string -> string -> bool.

(** [onPart(req, server, leavingUser, chan, kind)] after the mention cache
    entry of the channel was invalidated: what it returns or enqueues. *)
Definition onPart (server : IrcServer) (leavingUser : IrcUser) (chan kind : string)
  : PartResult :=
  if negb (shouldSyncMembershipToMatrix server "incremental" chan) then part_not_mirrored
  else
    let nick := nick leavingUser in
    let matrixRooms := getMatrixRoomsForChannel server chan in
    if Nat.eqb (List.length matrixRooms) 0 then part_no_rooms
    else if isVirtual leavingUser && negb (String.eqb kind "part") then part_ERR_VIRTUAL_USER
    else
      let enqueue (matrixUser : string) :=
        if String.eqb kind "quit" && shouldDebounceQuits server
           && negb (debounceQuit server matrixUser nick)
        then part_debounced
        else part_enqueued (chan ++ nick)
               {| id := Some (chan ++ nick);
                  rooms := matrixRooms;
                  userId := matrixUser;
                  shouldKick := isVirtual leavingUser;
                  kickReason := Some "Client PARTed from channel";
                  retry := true;
                  deop := negb (isVirtual leavingUser);
                  attempts := None |} in
      if isVirtual leavingUser then
        match getBridgedClientByNick server nick with
        | None => part_TypeError
        | Some bridgedClient =>
            if negb (inChannel bridgedClient chan) then part_ERR_DROPPED
            else enqueue (clientUserId bridgedClient)
        end
      else enqueue (getMatrixUser leavingUser).
End Parts.

(** *** Joining rooms: the retry of [onJoin] *)

Inductive JoinEnd :=
| join_resolved
| join_rejected              (* with the error of the join *)
| join_TypeError             (* [Promise.delay(delay)], which is not a function *)
| join_still_retrying.       (* the unrolling stopped first *)

(** [joinRetry(attempts)] of [onJoin], for one room: [answer n] settles the
    [n]-th [intent.join]; the result is the number of joins sent and how
    the promise ends.  [MAX_JOIN_ATTEMPTS] is [server.getJoinAttempts()].
    The retry is scheduled from inside the [catch] handler by
    [Promise.delay(delay).then(...)]: the call throws there, and the
    promise of the handler is rejected with the TypeError. *)
Fixpoint joinRetry (fuel : nat) (answer : nat -> Response) (MAX_JOIN_ATTEMPTS : Z)
         (sent : nat) (attempts : Z) : nat * JoinEnd :=
  match fuel with
  | O => (sent, join_still_retrying)
  | S fuel' =>
      match answer sent with
      | Resolved => (S sent, join_resolved)
      | Rejected _ =>
          if negb (Z.eqb MAX_JOIN_ATTEMPTS 0) && Z.ltb MAX_JOIN_ATTEMPTS attempts
          then (S sent, join_rejected)
          else
            match Promise_delay with
            | None => (S sent, join_TypeError)
            | Some _ => joinRetry fuel' answer MAX_JOIN_ATTEMPTS (S sent) (attempts + 1)
            end
      end
  end.

(** *** Tracking the members of PM rooms *)

Inductive MatrixMembership := m_join | m_invite | m_leave | m_ban.

(** An entry of [roomIdToPrivateMember]. *)
Record PrivateMember := mkPrivateMember {
  sender : string;
  membership : MatrixMembership;
}.

(** A state event of a room, as [ensureMatrixUserJoined] reads it. *)
Record StateEvent := mkStateEvent {
  event_type : string;
  state_key : string;
  content_membership : MatrixMembership;
}.

(** [onMatrixMemberEvent(event)] *)
Definition onMatrixMemberEvent (room_id state_key : string) (m : MatrixMembership)
           (members : gmap string PrivateMember) : gmap string PrivateMember :=
  match members !! room_id with
  | None => members
  | Some priv =>
      if negb (String.eqb (sender priv) state_key) then members
      else <[room_id := {| sender := sender priv; membership := m |}]> members
  end.

Inductive PmCall :=
| call_roomState (intent room : string)
| call_invite (intent room user : string).

(** The membership of [userId] in the room state: the first
    [m.room.member] event with that state key. *)
Fixpoint membershipInState (stateEvents : list StateEvent) (userId : string)
  : option MatrixMembership :=
  match stateEvents with
  | [] => None
  | e :: rest =>
      if String.eqb (event_type e) "m.room.member" && String.eqb (state_key e) userId
      then Some (content_membership e)
      else membershipInState rest userId
  end.

Definition is_joined_or_invited (m : MatrixMembership) : bool :=
  match m with m_join | m_invite => true | _ => false end.

Section PrivateMembers.
(** The homeserver: the state of a room ([None]: the request fails) and
    whether an invite goes through. *)
Variable roomState : string -> option (list StateEvent).
Variable invite : string -> string -> Response.

(** [ensureMatrixUserJoined(roomId, userId, virtUserId, log)]: the
    tracking map it leaves, the calls it made, and whether it threw. *)
Definition ensureMatrixUserJoined (roomId userId virtUserId : string)
           (members : gmap string PrivateMember)
  : gmap string PrivateMember * list PmCall * bool :=
  let '(priv, members, calls, threw) :=
    match members !! roomId with
    | Some priv => (priv, members, [], false)
    | None =>
        let priv := {| sender := userId; membership := m_leave |} in
        let members := <[roomId := priv]> members in
        let calls := [call_roomState virtUserId roomId] in
        match roomState roomId with
        | None => (priv, members, calls, true)
        | Some stateEvents =>
            match membershipInState stateEvents userId with
            | None => (priv, members, calls, false)
            | Some m =>
                let priv := {| sender := userId; membership := m |} in
                (priv, <[roomId := priv]> members, calls, false)
            end
        end
    end in
  if threw then (members, calls, true)
  else if is_joined_or_invited (membership priv) then (members, calls, false)
  else
    let calls := (calls ++ [call_invite virtUserId roomId userId])%list in
    match invite roomId userId with
    | Rejected _ => (members, calls, true)
    | Resolved =>
        (<[roomId := {| sender := sender priv; membership := m_invite |}]> members,
         calls, false)
    end.
End PrivateMembers.

(** *** Invalidating the mention cache *)

(** [Object.values(mapping).includes(userId)] *)
Definition mentionsUser (userId : string) (mapping : JsMap string) : bool :=
  existsb (String.eqb userId) (map snd mapping).

(** [invalidateCachingForUserId(userId)]: every cached mapping that has the
    user among its values is deleted, by key, while the map is walked. *)
Definition invalidateCachingForUserId (mentionMode : MentionMode) (userId : string)
           (cache : JsMap (JsMap string)) : bool * JsMap (JsMap string) :=
  match mentionMode with
  | mode_force_off => (false, cache)
  | _ =>
      (true,
       fold_left (fun c entry =>
                    if mentionsUser userId (snd entry)
                    then map_delete c (Some (fst entry))
                    else c)
                 cache cache)
  end.

(** *** Call counters *)

Inductive MetricNames :=
| metric_join_names | metric_join | metric_part | metric_pm | metric_invite
| metric_topic | metric_message | metric_kick | metric_mode.

Definition MetricNames_eqb (a b : MetricNames) : bool :=
  match a, b with
  | metric_join_names, metric_join_names | metric_join, metric_join
  | metric_part, metric_part | metric_pm, metric_pm | metric_invite, metric_invite
  | metric_topic, metric_topic | metric_message, metric_message
  | metric_kick, metric_kick | metric_mode, metric_mode => true
  | _, _ => false
  end.

(** [callCountMetrics]: [None] before the first [getMetrics]; a counter
    may be [undefined] in the object [getMetrics] hands out. *)
Definition Metrics : Type := option (MetricNames -> Z).

(** [incrementMetric(metric)] *)
Definition incrementMetric (metric : MetricNames) (counters : Metrics) : Metrics :=
  match counters with
  | None => None
  | Some c => Some (fun m => if MetricNames_eqb m metric then c m + 1 else c m)
  end.

(** [getMetrics()]: the counts so far ([None]: the empty object) and the
    counters reset to zero. *)
Definition getMetrics (counters : Metrics) : Metrics * Metrics :=
  (counters, Some (fun _ => 0)).

(** The membership call the loop body makes for a room. *)
Definition membership_call (item : LeaveItem) (room : string) : Call :=
  if shouldKick item
  then intent_kick None room (userId item) (kickReason item)
  else intent_leave (Some (userId item)) room.

(** What one invocation on [item] may record: its membership call for some
    room, the removal of power levels when [deop] is set, its log lines and
    delays, and the re-enqueueing of a copy of [item] that differs in
    [rooms] and [attempts] only. *)
Definition event_of_item (item : LeaveItem) (e : LeaveEvent) : Prop :=
  match e with
  | called c _ =>
      (exists room, c = membership_call item room)
      \/ (deop item = true /\ exists room, c = removePowerLevels room [userId item])
  | enqueued key child =>
      exists rs n,
        key = (id item, n)
        /\ child = {| id := id item; rooms := rs; userId := userId item;
                      shouldKick := shouldKick item; kickReason := kickReason item;
                      retry := retry item; deop := deop item; attempts := Some n |}
  | _ => True
  end.

(** The events of the retry: the delay, the attempt limit, the item put
    back on the queue. *)
Definition is_retry_event (e : LeaveEvent) : bool :=
  match e with
  | delayed | log_hit_attempt_limit | enqueued _ _ => true
  | _ => false
  end.

(** The calls of an iteration in which nothing fails. *)
Definition calls_for (item : LeaveItem) (room : MatrixRoom) : list Call :=
  membership_call item (getId room)
  :: (if deop item then [removePowerLevels (getId room) [userId item]] else []).

Definition is_kick_call (c : Call) : bool :=
  match c with intent_kick _ _ _ _ => true | _ => false end.

Definition is_leave_call (c : Call) : bool :=
  match c with intent_leave _ _ => true | _ => false end.

(** A Matrix user with an IRC client, kicked from a bridged channel by an
    IRC user. *)
Definition example_rooms (server : IrcServer) (chan : string) : list MatrixRoom :=
  if String.eqb chan "#chan" then [ {| getId := "!room:hs"; topic := None |} ] else [].

Definition example_clients (server : IrcServer) (nick : string) : option BridgedClient :=
  if String.eqb nick "M-alice"
  then Some {| clientUserId := "@alice:hs"; isBot := false |}
  else None.

Definition example_matrix_user (u : IrcUser) : string :=
  "@irc_" ++ nick u ++ ":hs".

End IrcHandler.

(** ** The ident server (src/irc/Ident.ts) *)

Module IdentSrv.

(** [portMappings]: the key is the port as JavaScript prints it. *)
Definition portKey (port : Z) : string := pretty port.

(** [setMapping(username, port)]: a positive port is assigned; port 0
    removes every port of the user; a negative port does nothing. *)
Definition setMapping (username : string) (port : Z) (portMappings : gmap string string)
  : gmap string string :=
  if Z.ltb 0 port then <[portKey port := username]> portMappings
  else if Z.eqb port 0
       then filter (fun kv => kv.2 <> username) portMappings
       else portMappings.

Definition CRLF : string :=
  String (Ascii.ascii_of_nat 13) (String (Ascii.ascii_of_nat 10) EmptyString).

(** [respond(sock, localPort, remotePort, username?)]: what is written to
    the socket. *)
Definition respond (localPort remotePort : string) (username : option string) : string :=
  match username with
  | Some u =>
      if truthy username
      then localPort ++ "," ++ remotePort ++ ":USERID:UNIX:" ++ u ++ CRLF
      else localPort ++ "," ++ remotePort ++ ":ERROR:NO-USER" ++ CRLF
  | None => localPort ++ "," ++ remotePort ++ ":ERROR:NO-USER" ++ CRLF
  end.

(** [tryRespond(sock, localPort, remotePort)]: whether it first waited for
    the pending connections, and the response. *)
Definition tryRespond (portMappings : gmap string string) (localPort remotePort : string)
  : bool * string :=
  let username := portMappings !! localPort in
  if truthy username then (false, respond localPort remotePort username)
  else (true, respond localPort remotePort None).

End IdentSrv.

(** * Properties *)

(** ** The retry ceiling of the membership queues *)

Module RetryCeiling.

Lemma forbidden_is_not_retried (ex : MatrixError) (n : Z) :
  errcode_is_forbidden ex = true \/ httpStatus_is ex 403 = true ->
  MembershipQueue.shouldRetry ex n = false
  /\ MembershipQueueBridge.shouldRetry ex n = false.
Proof.
  unfold MembershipQueue.shouldRetry, MembershipQueueBridge.shouldRetry.
  intros [H | H]; rewrite H; split;
    destruct (Z.eqb n _), (errcode_is_forbidden ex), (httpStatus_is ex 403);
    reflexivity || discriminate.
Qed.

(** A rejected join with a forbidden error is rethrown, in both queues. *)
Lemma forbidden_join_is_given_up (ex : MatrixError) room user n :
  errcode_is_forbidden ex = true \/ httpStatus_is ex 403 = true ->
  MembershipQueue.outcome
    (MembershipQueue.serviceQueue (fun _ => Rejected ex)
       {| MembershipQueue.type := MembershipQueue.join_type;
          MembershipQueue.kickUser := None; MembershipQueue.reason := None;
          MembershipQueue.attempts := n; MembershipQueue.roomId := room;
          MembershipQueue.userId := user; MembershipQueue.retry := true |})
  = MembershipQueue.Rethrown ex
  /\ MembershipQueueBridge.outcome
       (MembershipQueueBridge.serviceQueue (fun _ => Rejected ex)
          {| MembershipQueueBridge.type := MembershipQueueBridge.join_type;
             MembershipQueueBridge.kickUser := None; MembershipQueueBridge.reason := None;
             MembershipQueueBridge.attempts := n; MembershipQueueBridge.roomId := room;
             MembershipQueueBridge.userId := user; MembershipQueueBridge.retry := true |})
     = MembershipQueueBridge.Rethrown ex.
Proof.
  intros H. destruct (forbidden_is_not_retried ex n H) as [H1 H2].
  unfold MembershipQueue.serviceQueue, MembershipQueueBridge.serviceQueue,
    MembershipQueue.onFailure, MembershipQueueBridge.onFailure; simpl.
  rewrite H1, H2. split; reflexivity.
Qed.

Section BotSdkQueue.
Import MembershipQueue.

(** One run puts back an item whose attempt count is one more, and only
    below the limit. *)
Lemma requeue_increments env item next :
  outcome (serviceQueue env item) = Requeued next ->
  attempts next = (attempts item + 1)%Z /\ attempts item <> ATTEMPTS_LIMIT.
Proof.
  unfold serviceQueue, onFailure, shouldRetry.
  destruct (type item); simpl.
  - destruct (env _); [discriminate|].
    destruct (Z.eqb_spec (attempts item) ATTEMPTS_LIMIT) as [->|Hne]; simpl;
      [discriminate|].
    destruct (errcode_is_forbidden ex || httpStatus_is ex 403); simpl; [discriminate|].
    intros [= <-]. simpl. split; [reflexivity | assumption].
  - destruct (truthy (kickUser item)); discriminate.
Qed.

(** Whatever the homeserver answers, an item that starts at or below the
    limit is put back at most [ATTEMPTS_LIMIT - attempts] times. *)
Lemma requeues_bounded env :
  forall fuel n item,
    (0 <= attempts item <= ATTEMPTS_LIMIT)%Z ->
    (Z.of_nat (requeues (lifecycle fuel n env item)) <= ATTEMPTS_LIMIT - attempts item)%Z.
Proof.
  unfold ATTEMPTS_LIMIT.
  induction fuel as [|fuel IH]; intros n item Hr; simpl.
  - unfold requeues; simpl. lia.
  - unfold requeues in *. simpl. unfold is_requeued at 1.
    destruct (outcome (serviceQueue (env n) item)) eqn:Hout; simpl; try lia.
    apply requeue_increments in Hout as [Hn Hlim]. unfold ATTEMPTS_LIMIT in Hlim.
    specialize (IH (S n) next). rewrite Hn in IH. lia.
Qed.

(** Eleven runs are enough for the life of an item to end. *)
Lemma lifecycle_ends env :
  forall fuel n item,
    (0 <= attempts item <= ATTEMPTS_LIMIT)%Z ->
    (Z.of_nat fuel > ATTEMPTS_LIMIT - attempts item)%Z ->
    exists runs last,
      lifecycle fuel n env item = (runs ++ [last])%list
      /\ is_requeued last = false.
Proof.
  unfold ATTEMPTS_LIMIT.
  induction fuel as [|fuel IH]; intros n item Hr Hfuel; [lia|].
  simpl. destruct (outcome (serviceQueue (env n) item)) eqn:Hout.
  - exists [], (serviceQueue (env n) item). split; [reflexivity|].
    unfold is_requeued. now rewrite Hout.
  - exists [], (serviceQueue (env n) item). split; [reflexivity|].
    unfold is_requeued. now rewrite Hout.
  - apply requeue_increments in Hout as [Hn Hlim]. unfold ATTEMPTS_LIMIT in Hlim.
    destruct (IH (S n) next) as (runs & last & -> & Hlast); [lia | lia |].
    exists (serviceQueue (env n) item :: runs), last. split; [reflexivity | assumption].
Qed.

(** A leave or kick is never put back: its promise is not awaited. *)
Lemma leave_is_never_requeued env item :
  type item = leave_type ->
  outcome (serviceQueue env item) = Finished
  /\ awaited (serviceQueue env item) = false.
Proof.
  intros H. unfold serviceQueue. rewrite H.
  now destruct (truthy (kickUser item)).
Qed.

(** A join that always fails with a transient error is put back exactly
    ten times, and the eleventh run gives it up. *)
Lemma failing_join_is_requeued_ten_times room user :
  let runs := lifecycle 25 0 (fun _ _ => Rejected transient_error) (join room user true) in
  List.length runs = 11%nat /\ requeues runs = 10%nat
  /\ outcome <$> last runs = Some (Rethrown transient_error).
Proof.
  repeat split; vm_compute; reflexivity.
Qed.
End BotSdkQueue.

Section BridgeQueue.
Import MembershipQueueBridge.

(** One run of the second queue puts back the very item it was given. *)
Lemma bridge_requeues_same_item env item next :
  outcome (serviceQueue env item) = Requeued next -> next = item.
Proof.
  unfold serviceQueue, onFailure; simpl.
  destruct (env _); [discriminate|].
  destruct (negb _); [discriminate|]. now intros [= <-].
Qed.

Lemma bridge_failing_join_run room user w :
  outcome (serviceQueue (fun _ => Rejected transient_error) (join room user true))
  = Requeued (join room user true)
  /\ attempts (join room user w) = 0%Z.
Proof. split; reflexivity. Qed.

(** C4 (the second MembershipQueue breaks the retry ceiling).  A join whose
    call fails with a transient error on every attempt is put back on the
    queue after every run, with its attempt count still 0: for every [n]
    the first [n] runs all end in a re-enqueue of the unchanged item, so the
    item is retried an 11th time and beyond. *)
Theorem bridge_queue_retries_past_the_ceiling :
  forall (n : nat) (room : string) (user : option string),
    let item := join room user true in
    let runs := lifecycle n 0 (fun _ _ => Rejected transient_error) item in
    List.length runs = n
    /\ requeues runs = n
    /\ Forall (fun r => outcome r = Requeued item /\ attempts item = 0%Z) runs.
Proof.
  intros n room user item runs. subst runs.
  generalize 0%nat as k.
  destruct (bridge_failing_join_run room user true) as [Hrun _]. fold item in Hrun.
  induction n as [|n IH]; intros k.
  - repeat split. constructor.
  - cbn [lifecycle]. rewrite Hrun.
    destruct (IH (S k)) as (Hlen & Hreq & Hall).
    repeat split.
    + cbn [List.length]. now rewrite Hlen.
    + unfold requeues in *. cbn [List.filter]. unfold is_requeued at 1.
      rewrite Hrun. cbn [List.length]. now rewrite Hreq.
    + constructor; [split; [exact Hrun | reflexivity] | exact Hall].
Qed.
End BridgeQueue.

End RetryCeiling.

(** ** The visibility syncer *)

Module Publicity.
Import PublicitySyncer.

(** Pushing rooms onto [networkToRooms] touches nothing else. *)
Lemma push_rooms_keeps key rooms_ m :
  let m' := fold_left (fun m room => pushNetworkToRooms key room m) rooms_ m in
  mappings m' = mappings m
  /\ channelIsSecret m' = channelIsSecret m
  /\ roomVisibilities m' = roomVisibilities m.
Proof.
  revert m. induction rooms_ as [|r rs IH]; intros m; simpl.
  - repeat split.
  - destruct (IH (pushNetworkToRooms key r m)) as (H1 & H2 & H3).
    rewrite H1, H2, H3. repeat split.
Qed.

(** With [mappings] empty every per-room task rejects at once. *)
Lemma updateRoom_without_mappings respond correct current room w :
  mappings (vmap w) = ∅ ->
  updateRoom respond correct current room w = (Some TypeError, w).
Proof.
  intros H. unfold updateRoom, networkIdOfFirstMapping.
  rewrite H, lookup_empty. reflexivity.
Qed.

Lemma updateRooms_without_mappings respond correct current roomIds w :
  mappings (vmap w) = ∅ ->
  updateRooms respond correct current roomIds w
  = (match roomIds with [] => None | _ :: _ => Some TypeError end, w).
Proof.
  intros H. induction roomIds as [|r rs IH]; simpl; [reflexivity|].
  rewrite updateRoom_without_mappings by assumption. rewrite IH. reflexivity.
Qed.

Lemma solveVisibility_runs respond channel server w :
  solveVisibility respond channel server w
  = (match getMatrixRoomsForChannel (store w) server channel with
     | [] => None
     | _ :: _ => Some TypeError
     end,
     solving channel server w).
Proof.
  unfold solveVisibility, solving.
  set (roomIds := getMatrixRoomsForChannel (store w) server channel).
  set (m0 := {| mappings := ∅; networkToRooms := _; channelIsSecret := _;
                roomVisibilities := _ |}).
  set (key := getIRCVisMapKey _ _).
  destruct (push_rooms_keeps key roomIds m0) as (Hm & Hs & _).
  cbn [store set_vmap vmap].
  rewrite updateRooms_without_mappings by (cbn; exact Hm).
  f_equal. unfold correctStateOf. cbn [vmap]. rewrite Hs. reflexivity.
Qed.

(** C3.  Whenever [solveVisibility] runs with at least one mapped room, the
    [mappings] it has just emptied are still empty when the per-room tasks
    read them, so every task throws a TypeError; the returned promise
    rejects; the only effect is the "solved" log line: no directory
    visibility update, no store write, no cache update; and
    [updateVisibilityMap]'s [catch] turns the rejection into one error log
    line. *)
Theorem solveVisibility_throws_before_any_update :
  forall (respond : Effect -> Response) (channel : string) (server : IrcServer) (w : World),
    getMatrixRoomsForChannel (store w) server channel <> [] ->
    let result := solveVisibility respond channel server w in
    fst result = Some TypeError
    /\ mappings (vmap (snd result)) = ∅
    /\ Forall (fun room =>
                 updateRoom respond (correctStateOf (vmap w) channel)
                            (currentStatesOf (store w)
                               (getMatrixRoomsForChannel (store w) server channel))
                            room (snd result)
                 = (Some TypeError, snd result))
              (getMatrixRoomsForChannel (store w) server channel)
    /\ effects (snd result)
       = (effects w ++ [log_info_solved channel (networkId server)
                                        (correctStateOf (vmap w) channel)])%list
    /\ List.filter is_visibility_write (effects (snd result))
       = List.filter is_visibility_write (effects w)
    /\ store (snd result) = store w
    /\ roomVisibilities (vmap (snd result)) = roomVisibilities (vmap w)
    /\ solveAndCatch respond channel server w
       = emit (log_error_failed_to_sync channel) (snd result).
Proof.
  intros respond channel server w Hne result. subst result.
  assert (Hm : mappings (vmap (solving channel server w)) = ∅).
  { unfold solving. cbn [emit set_vmap vmap].
    match goal with
    | |- mappings (fold_left _ ?l ?m0) = _ =>
        destruct (push_rooms_keeps (getIRCVisMapKey (networkId server) channel) l m0)
          as (H & _ & _); exact H
    end. }
  unfold solveAndCatch. rewrite solveVisibility_runs.
  destruct (getMatrixRoomsForChannel (store w) server channel) as [|r rs] eqn:Hrooms;
    [congruence|].
  cbn [fst snd]. repeat split.
  - exact Hm.
  - apply Forall_forall. intros room _. now apply updateRoom_without_mappings.
  - unfold solving. cbn [emit set_vmap effects]. rewrite List.filter_app. cbn.
    now rewrite app_nil_r.
  - unfold solving. cbn [emit set_vmap vmap].
    match goal with
    | |- roomVisibilities (fold_left _ ?l ?m0) = _ =>
        destruct (push_rooms_keeps (getIRCVisMapKey (networkId server) channel) l m0)
          as (_ & _ & H); exact H
    end.
Qed.

Lemma solveVisibility_throws_witness :
  getMatrixRoomsForChannel (store (fresh_world one_channel_store)) example_server "#secret"
  <> []
  /\ fst (solveVisibility (fun _ => Resolved) "#secret" example_server
            (fresh_world one_channel_store))
     = Some TypeError.
Proof.
  assert (H : getMatrixRoomsForChannel (store (fresh_world one_channel_store))
                example_server "#secret" <> []) by (vm_compute; discriminate).
  split; [exact H|].
  exact (proj1 (solveVisibility_throws_before_any_update
                  (fun _ => Resolved) "#secret" example_server
                  (fresh_world one_channel_store) H)).
Defined.

(** C1 (the solved visibility ignores the other channels of a room, and the
    key the secrecy was stored under).  Two runs of the code:
    - the mode [+s] of [#secret] is reported through [updateVisibilityMap]
      under the key [getIRCVisMapKey] builds, as its documentation says; the
      room bridged to [#secret] is solved as public;
    - with the secrecy cache keyed by channel name, [#secret] flagged secret
      and [#open] flagged not secret, a change on [#open] solves the room
      bridged to both as public. *)
Theorem secret_channel_solved_public :
  forall respond : Effect -> Response,
    (let key := getIRCVisMapKey (networkId example_server) "#secret" in
     let w := snd (updateVisibilityMap respond true key (VBool true) "#secret"
                                       example_server (fresh_world one_channel_store)) in
     channelIsSecret (vmap w) !! key = Some true
     /\ channelsOfRoom (store w) example_server "!room:hs" = ["#secret"]
     /\ getMatrixRoomsForChannel (store w) example_server "#secret" = ["!room:hs"]
     /\ solved_states (effects w) = [public])
    /\
    (let m := {| mappings := ∅; networkToRooms := ∅;
                 channelIsSecret := <["#secret" := true]> (<["#open" := false]> ∅);
                 roomVisibilities := ∅ |} in
     let w := snd (solveVisibility respond "#open" example_server
                                   {| vmap := m; store := two_channel_store; effects := [] |}) in
     channelIsSecret m !! "#secret" = Some true
     /\ channelsOfRoom two_channel_store example_server "!room:hs" = ["#secret"; "#open"]
     /\ getMatrixRoomsForChannel two_channel_store example_server "#open" = ["!room:hs"]
     /\ solved_states (effects w) = [public]).
Proof.
  intros respond. split.
  - cbn zeta. unfold updateVisibilityMap, fresh_world. cbn [vmap emptyVisibilityMap channelIsSecret].
    rewrite lookup_empty. unfold solveAndCatch. rewrite solveVisibility_runs.
    repeat split; vm_compute; reflexivity.
  - cbn zeta. rewrite solveVisibility_runs. repeat split; vm_compute; reflexivity.
Qed.

(** C2 (an unobserved channel is solved as public).  Whenever the secrecy
    cache has no entry for the channel, the visibility [solveVisibility]
    derives and logs for its rooms is public. *)
Theorem unobserved_channel_solved_public :
  forall (respond : Effect -> Response) (channel : string) (server : IrcServer) (w : World),
    channelIsSecret (vmap w) !! channel = None ->
    correctStateOf (vmap w) channel = public
    /\ effects (snd (solveVisibility respond channel server w))
       = (effects w ++ [log_info_solved channel (networkId server) public])%list.
Proof.
  intros respond channel server w H.
  assert (Hc : correctStateOf (vmap w) channel = public).
  { unfold correctStateOf. now rewrite H. }
  split; [exact Hc|].
  rewrite solveVisibility_runs. cbn [snd]. unfold solving. cbn [emit set_vmap effects].
  now rewrite Hc.
Qed.

Lemma unobserved_channel_witness :
  channelIsSecret (vmap (fresh_world one_channel_store)) !! "#secret" = None
  /\ solved_states
       (effects (snd (solveVisibility (fun _ => Resolved) "#secret" example_server
                                      (fresh_world one_channel_store))))
     = [public].
Proof.
  assert (H : channelIsSecret (vmap (fresh_world one_channel_store)) !! "#secret" = None)
    by reflexivity.
  split; [exact H|].
  rewrite (proj2 (unobserved_channel_solved_public
                    (fun _ => Resolved) "#secret" example_server
                    (fresh_world one_channel_store) H)).
  reflexivity.
Defined.

End Publicity.


(** ** The leave queue *)

Module LeaveQueue.
Import IrcHandler.

Lemma requeued_from_same_fields root it :
  requeued_from root it ->
  id it = id root /\ userId it = userId root /\ shouldKick it = shouldKick root
  /\ kickReason it = kickReason root /\ retry it = retry root /\ deop it = deop root.
Proof.
  induction 1 as [|parent rs n _ IH]; [repeat split|exact IH].
Qed.

(** A list's length is never negative. *)
Lemma no_retry_rooms_guard_is_false (s : LeaveRun) :
  Z.ltb (Z.of_nat (List.length (retryRooms s))) 0 = false.
Proof. apply Z.ltb_ge. lia. Qed.

(** The guard passed, [Promise.delay] is called, and the call throws:
    nothing is recorded and the run ends there. *)
Lemma afterAttempt_throws item s :
  afterAttempt item s = (Some throw_TypeError, s).
Proof.
  unfold afterAttempt. rewrite no_retry_rooms_guard_is_false. reflexivity.
Qed.

Lemma leaveStep_exit env item room s out s' :
  leaveStep env item room s = (Some out, s') -> out = throw_TypeError.
Proof.
  unfold leaveStep, request.
  destruct (env _ _) as [|ex].
  - rewrite afterAttempt_throws. now intros [= <- _].
  - destruct (notRetrying item ex); [discriminate|].
    rewrite afterAttempt_throws. now intros [= <- _].
Qed.

Lemma leaveLoop_exit env item todo :
  forall s, fst (leaveLoop env item todo s) <> return_no_retry_rooms.
Proof.
  induction todo as [|room rest IH]; intros s; simpl; [discriminate|].
  destruct (leaveStep env item room s) as [[out|] s'] eqn:Hstep; [|apply IH].
  apply leaveStep_exit in Hstep as ->. discriminate.
Qed.

(** C10.  In every execution of [handleLeaveQueue] the guard
    [retryRooms.length < 0] is false whatever the rooms collected, and the
    handler never leaves through the [return] it guards. *)
Theorem early_return_is_unreachable :
  forall (env : nat -> Call -> Response) (item : LeaveItem),
    (forall s : LeaveRun, Z.ltb (Z.of_nat (List.length (retryRooms s))) 0 = false)
    /\ fst (handleLeaveQueue env item) <> return_no_retry_rooms.
Proof.
  intros env item. split.
  - apply no_retry_rooms_guard_is_false.
  - apply leaveLoop_exit.
Qed.

Lemma is400_spec ex :
  is400 ex = true <-> exists st, httpStatus ex = Some st /\ (400 < st < 500)%Z.
Proof.
  unfold is400. destruct (httpStatus ex) as [st|].
  - rewrite andb_true_iff, !Z.ltb_lt. split.
    + intros [H1 H2]. exists st. split; [reflexivity | lia].
    + intros (st' & [= <-] & H). lia.
  - split; [discriminate | intros (st & H & _); discriminate].
Qed.

(** A failure above 400 and below 500, a forbidden error, or a failure of
    an item that may not be retried ends the iteration at [continue]: the
    room is not pushed on [retryRooms] and nothing is re-enqueued. *)
Lemma terminal_failure_is_not_retried env item room s ex :
  env (calls_made s) (membership_call item (getId room)) = Rejected ex ->
  retry item = false \/ errcode_is_forbidden ex = true
  \/ (exists st, httpStatus ex = Some st /\ (400 < st < 500)%Z) ->
  leaveStep env item room s
  = (None, record log_not_retrying
             (record (called (membership_call item (getId room)) (Rejected ex)) s)).
Proof.
  intros Henv Hterm. unfold leaveStep, request. fold (membership_call item (getId room)).
  rewrite Henv.
  assert (notRetrying item ex = true) as ->; [|reflexivity].
  unfold notRetrying. destruct Hterm as [-> | [-> | H]].
  - reflexivity.
  - now rewrite orb_true_r.
  - apply is400_spec in H as ->. now rewrite orb_true_r.
Qed.

(** C6 (status 400 is not terminal).  A leave or kick that fails with HTTP
    status 400, for an item that may be retried and an error that is not
    M_FORBIDDEN, is not caught by [is400], whose lower bound is strict: the
    iteration does not end at [continue], no "Not retrying" is logged, and
    the room is pushed on [retryRooms]. *)
Theorem status_400_is_not_terminal :
  forall (env : nat -> Call -> Response) (item : LeaveItem) (room : MatrixRoom)
         (s : LeaveRun) (ex : MatrixError),
    env (calls_made s) (membership_call item (getId room)) = Rejected ex ->
    httpStatus ex = Some 400%Z ->
    errcode_is_forbidden ex = false ->
    retry item = true ->
    let s' := snd (leaveStep env item room s) in
    is400 ex = false
    /\ notRetrying item ex = false
    /\ retryRooms s' = (retryRooms s ++ [room])%list
    /\ trace s' = (trace s ++ [called (membership_call item (getId room)) (Rejected ex)])%list.
Proof.
  intros env item room s ex Henv Hst Hforbidden Hretry.
  assert (H400 : is400 ex = false) by (unfold is400; now rewrite Hst).
  assert (Hnot : notRetrying item ex = false).
  { unfold notRetrying. now rewrite Hretry, Hforbidden, H400. }
  cbn zeta. unfold leaveStep, request. fold (membership_call item (getId room)).
  rewrite Henv, Hnot, afterAttempt_throws. now repeat split.
Qed.

Lemma status_400_witness :
  let room := {| getId := "!room:hs"; topic := None |} in
  let ex := {| errcode := Some "M_UNKNOWN"; httpStatus := Some 400%Z |} in
  let item := {| id := None; rooms := [room]; userId := "@alice:hs"; shouldKick := false;
                 kickReason := None; retry := true; deop := false;
                 attempts := None |} in
  let s := {| retryRooms := []; attemptsNow := 0; trace := [] |} in
  retryRooms (snd (leaveStep (fun _ _ => Rejected ex) item room s)) = [room].
Proof.
  intros room ex item s.
  exact (proj1 (proj2 (proj2
           (status_400_is_not_terminal (fun _ _ => Rejected ex) item room s ex
              eq_refl eq_refl eq_refl eq_refl)))).
Defined.

(** Every event an invocation records is an event of its item. *)
Lemma afterAttempt_events item s :
  exists new, trace (snd (afterAttempt item s)) = (trace s ++ new)%list
              /\ Forall (event_of_item item) new.
Proof.
  rewrite afterAttempt_throws. exists []. now rewrite app_nil_r.
Qed.

Lemma leaveStep_events env item room s :
  exists new, trace (snd (leaveStep env item room s)) = (trace s ++ new)%list
              /\ Forall (event_of_item item) new.
Proof.
  unfold leaveStep, request. fold (membership_call item (getId room)).
  set (c := membership_call item (getId room)).
  set (c2 := removePowerLevels (getId room) [userId item]).
  assert (Hc : forall r, event_of_item item (called c r)).
  { intros r. left. now exists (getId room). }
  assert (Hlog : event_of_item item log_not_retrying /\ event_of_item item log_deop_failed)
    by (split; exact I).
  destruct Hlog as [Hlog1 Hlog2].
  destruct (env (calls_made s) c) as [|ex] eqn:Hr.
  - destruct (deop item) eqn:Hdeop.
    + assert (Hc2 : forall r, event_of_item item (called c2 r)).
      { intros r. right. split; [assumption|]. now exists (getId room). }
      destruct (env _ c2) as [|ex2];
        match goal with
        | |- context [afterAttempt item ?s0] =>
            destruct (afterAttempt_events item s0) as (new & -> & Hnew)
        end; cbn [record trace]; rewrite <- ?app_assoc;
        eexists; (split; [reflexivity|]); cbn [app]; auto using Forall_cons.
    + destruct (afterAttempt_events item (record (called c Resolved) s)) as (new & -> & Hnew).
      cbn [record trace]. rewrite <- app_assoc.
      eexists; split; [reflexivity|]. cbn [app]. auto using Forall_cons.
  - destruct (notRetrying item ex).
    + cbn [snd record trace]. rewrite <- app_assoc.
      eexists; split; [reflexivity|]. cbn [app]. auto using Forall_cons, Forall_nil.
    + match goal with
      | |- context [afterAttempt item ?s0] =>
          destruct (afterAttempt_events item s0) as (new & -> & Hnew)
      end.
      cbn [record trace]. rewrite <- app_assoc.
      eexists; split; [reflexivity|]. cbn [app]. auto using Forall_cons.
Qed.

Lemma leaveLoop_events env item todo :
  forall s, exists new,
    trace (snd (leaveLoop env item todo s)) = (trace s ++ new)%list
    /\ Forall (event_of_item item) new.
Proof.
  induction todo as [|room rest IH]; intros s; simpl.
  - exists []. now rewrite app_nil_r.
  - destruct (leaveStep_events env item room s) as (new1 & H1 & Hnew1).
    destruct (leaveStep env item room s) as [[out|] s1]; cbn [snd] in *.
    + now exists new1.
    + destruct (IH s1) as (new2 & H2 & Hnew2). rewrite H2, H1, <- app_assoc.
      exists (new1 ++ new2)%list. split; [reflexivity|]. now apply Forall_app.
Qed.

Lemma handleLeaveQueue_events env item :
  Forall (event_of_item item) (trace (snd (handleLeaveQueue env item))).
Proof.
  unfold handleLeaveQueue.
  destruct (leaveLoop_events env item (rooms item)
              {| retryRooms := []; attemptsNow := default 0%Z (attempts item);
                 trace := [] |}) as (new & -> & H).
  exact H.
Qed.

(** What an invocation re-enqueues descends from what it was given. *)
Lemma enqueued_items_descend env root parent child :
  requeued_from root parent ->
  In child (enqueued_items (trace (snd (handleLeaveQueue env parent)))) ->
  requeued_from root child.
Proof.
  intros Hp Hin. unfold enqueued_items in Hin. apply in_flat_map in Hin as (e & He & Hin).
  pose proof (handleLeaveQueue_events env parent) as Hall.
  rewrite Forall_forall in Hall. specialize (Hall e).
  destruct e; try contradiction.
  destruct Hin as [<-|[]].
  destruct Hall as (rs & n & _ & ->).
  - apply list_elem_of_In. exact He.
  - now constructor.
Qed.

Lemma calls_of_item env item c :
  In c (calls_of (trace (snd (handleLeaveQueue env item)))) ->
  (exists room, c = membership_call item room)
  \/ (deop item = true /\ exists room, c = removePowerLevels room [userId item]).
Proof.
  intros Hin. unfold calls_of in Hin. apply in_flat_map in Hin as (e & He & Hin).
  pose proof (handleLeaveQueue_events env item) as Hall.
  rewrite Forall_forall in Hall. specialize (Hall e).
  destruct e; try contradiction.
  destruct Hin as [<-|[]]. apply Hall. apply list_elem_of_In. exact He.
Qed.

(** The first thing an invocation does is the membership call for the
    first room. *)
Lemma first_call_is_membership env item room rest :
  rooms item = room :: rest ->
  head (calls_of (trace (snd (handleLeaveQueue env item))))
  = Some (membership_call item (getId room)).
Proof.
  intros Hrooms. unfold handleLeaveQueue. rewrite Hrooms. cbn [leaveLoop].
  set (s0 := {| retryRooms := []; attemptsNow := _; trace := [] |}).
  assert (Hstep : exists new,
             trace (snd (leaveStep env item room s0))
             = (called (membership_call item (getId room))
                       (env 0%nat (membership_call item (getId room))) :: new)).
  { unfold leaveStep, request. fold (membership_call item (getId room)).
    change (calls_made s0) with 0%nat.
    destruct (env 0%nat (membership_call item (getId room))) as [|ex].
    - destruct (deop item).
      + unfold request.
        destruct (env _ (removePowerLevels _ _));
          match goal with
          | |- context [afterAttempt item ?s1] =>
              destruct (afterAttempt_events item s1) as (new & -> & _)
          end; cbn; eauto.
      + match goal with
        | |- context [afterAttempt item ?s1] =>
            destruct (afterAttempt_events item s1) as (new & -> & _)
        end. cbn. eauto.
    - destruct (notRetrying item ex).
      + cbn. eauto.
      + match goal with
        | |- context [afterAttempt item ?s1] =>
            destruct (afterAttempt_events item s1) as (new & -> & _)
        end. cbn. eauto. }
  destruct Hstep as (new & Hstep).
  destruct (leaveStep env item room s0) as [[out|] s1]; cbn [snd] in *.
  - rewrite Hstep. reflexivity.
  - destruct (leaveLoop_events env item rest s1) as (new2 & -> & _).
    rewrite Hstep. reflexivity.
Qed.

(** C5, as the code has it.  When [onKick] enqueues an item, its rooms are
    the rooms mapped to the channel, there is at least one, and the first
    run starts with the membership call for the first of them.  In every
    run of that item or of an item re-enqueued from it:
    - if the kickee is virtual (a Matrix user's IRC client), every call is
      a kick of that Matrix user issued with the bot's intent, the reason
      naming the kicker, and no call is a leave;
    - if the kickee is a real IRC user, every call is a leave issued by
      the kickee's own Matrix user, or the removal of its power levels,
      and no call is a kick. *)
Theorem kick_direction_by_kickee :
  forall (getRooms : IrcServer -> string -> list MatrixRoom)
         (getClient : IrcServer -> string -> option BridgedClient)
         (getUser : IrcUser -> string)
         (server : IrcServer) (kicker kickee : IrcUser) (chan why key : string)
         (item child : LeaveItem) (env : nat -> Call -> Response),
    onKick getRooms getClient getUser server kicker kickee chan why = Some (key, item) ->
    requeued_from item child ->
    let calls := calls_of (trace (snd (handleLeaveQueue env child))) in
    rooms item = getRooms server chan
    /\ (exists room rest,
          rooms item = room :: rest
          /\ head (calls_of (trace (snd (handleLeaveQueue env item))))
             = Some (membership_call item (getId room)))
    /\ (isVirtual kickee = true ->
        (exists client, getClient server (nick kickee) = Some client
                        /\ isBot client = false
                        /\ userId item = clientUserId client)
        /\ kickReason item
           = Some (nick kicker ++ " has kicked this user from " ++ chan ++ " (" ++ why ++ ")")
        /\ Forall (fun c => exists room,
                       c = intent_kick None room (userId item) (kickReason item)) calls
        /\ existsb is_leave_call calls = false)
    /\ (isVirtual kickee = false ->
        userId item = getUser kickee
        /\ Forall (fun c => exists room,
                       c = intent_leave (Some (userId item)) room
                       \/ c = removePowerLevels room [userId item]) calls
        /\ existsb is_kick_call calls = false).
Proof.
  intros getRooms getClient getUser server kicker kickee chan why key item child env
         Hkick Hchild calls.
  destruct (requeued_from_same_fields _ _ Hchild) as (_ & Hu & Hk & Hr & _ & Hd).
  assert (Hcalls : forall c, In c calls ->
            (exists room, c = membership_call item room)
            \/ (deop item = true /\ exists room, c = removePowerLevels room [userId item])).
  { intros c Hin. apply calls_of_item in Hin.
    unfold membership_call in *. rewrite Hu, Hk, Hr, Hd in Hin. exact Hin. }
  assert (Hrooms : rooms item = getRooms server chan /\ rooms item <> []).
  { unfold onKick in Hkick.
    destruct (isVirtual kickee);
      destruct (getRooms server chan) as [|r rs] eqn:Hg; cbn in Hkick; try discriminate.
    - destruct (getClient server (nick kickee)) as [cl|]; [|discriminate].
      destruct (isBot cl); [discriminate|]. injection Hkick as _ <-. now split.
    - injection Hkick as _ <-. now split. }
  destruct Hrooms as [Hrooms Hne].
  split; [exact Hrooms|]. split.
  { destruct (rooms item) as [|room rest] eqn:Hri; [congruence|].
    exists room, rest. split; [reflexivity|].
    eapply first_call_is_membership. exact Hri. }
  unfold onKick in Hkick. split; intros Hv; rewrite Hv in Hkick.
  - destruct (Nat.eqb _ 0); [discriminate|].
    destruct (getClient server (nick kickee)) as [cl|] eqn:Hcl; [|discriminate].
    destruct (isBot cl) eqn:Hbot; [discriminate|]. injection Hkick as _ <-.
    cbn [userId kickReason shouldKick deop] in *. unfold membership_call in Hcalls.
    cbn [userId kickReason shouldKick deop] in Hcalls.
    split; [now exists cl|]. split; [reflexivity|].
    assert (Hall : Forall (fun c => exists room,
                     c = intent_kick None room (clientUserId cl)
                           (Some (nick kicker ++ " has kicked this user from "
                                  ++ chan ++ " (" ++ why ++ ")"))) calls).
    { apply Forall_forall. intros c Hin. apply list_elem_of_In in Hin.
      destruct (Hcalls c Hin) as [H | [H _]]; [exact H | discriminate]. }
    split; [exact Hall|].
    clear -Hall. induction Hall as [|c l (room & ->) _ IH]; [reflexivity | exact IH].
  - destruct (Nat.eqb _ 0); [discriminate|]. injection Hkick as _ <-.
    unfold membership_call in Hcalls. cbn [userId kickReason shouldKick deop] in *.
    split; [reflexivity|].
    assert (Hall : Forall (fun c => exists room,
                     c = intent_leave (Some (getUser kickee)) room
                     \/ c = removePowerLevels room [getUser kickee]) calls).
    { apply Forall_forall. intros c Hin. apply list_elem_of_In in Hin.
      destruct (Hcalls c Hin) as [(room & H) | [_ (room & H)]]; exists room; auto. }
    split; [exact Hall|].
    clear -Hall. induction Hall as [|c l (room & [-> | ->]) _ IH]; [reflexivity | exact IH ..].
Qed.

Lemma kick_direction_witness :
  let kicker := {| nick := "bob"; isVirtual := false |} in
  let kickee := {| nick := "M-alice"; isVirtual := true |} in
  let item := {| id := None; rooms := [ {| getId := "!room:hs"; topic := None |} ];
                 userId := "@alice:hs"; shouldKick := true;
                 kickReason := Some "bob has kicked this user from #chan (spam)";
                 retry := true; deop := false; attempts := None |} in
  onKick example_rooms example_clients example_matrix_user example_server
         kicker kickee "#chan" "spam"
  = Some ("#chan@alice:hs", item)
  /\ requeued_from item item
  /\ existsb is_leave_call
             (calls_of (trace (snd (handleLeaveQueue (fun _ _ => Resolved) item))))
     = false.
Proof.
  intros kicker kickee item.
  assert (H1 : onKick example_rooms example_clients example_matrix_user example_server
                      kicker kickee "#chan" "spam"
               = Some ("#chan@alice:hs", item)) by reflexivity.
  assert (H2 : requeued_from item item) by constructor.
  split; [exact H1|]. split; [exact H2|].
  exact (proj2 (proj2 (proj2
           (proj1 (proj2 (proj2
              (kick_direction_by_kickee
                 example_rooms example_clients example_matrix_user example_server
                 kicker kickee "#chan" "spam" "#chan@alice:hs" item item
                 (fun _ _ => Resolved) H1 H2)))
              eq_refl)))).
Defined.

(** C5, as stated, fails: an IRC user kicks the IRC client of a Matrix
    user; the only call made on the Matrix side is a kick by the bot, and
    there is no leave. *)
Lemma virtual_kickee_is_kicked_not_left :
  let kicker := {| nick := "bob"; isVirtual := false |} in
  let kickee := {| nick := "M-alice"; isVirtual := true |} in
  match onKick example_rooms example_clients example_matrix_user example_server
               kicker kickee "#chan" "spam" with
  | None => False
  | Some (_, item) =>
      let calls := calls_of (trace (snd (handleLeaveQueue (fun _ _ => Resolved) item))) in
      isVirtual kickee = true
      /\ calls = [ intent_kick None "!room:hs" "@alice:hs"
                               (Some "bob has kicked this user from #chan (spam)") ]
      /\ ~ Forall (fun c => is_leave_call c = true /\ is_kick_call c = false) calls
  end.
Proof.
  cbn. split; [reflexivity|]. split; [reflexivity|].
  intros H. apply Forall_inv in H. destruct H as [H _]. discriminate H.
Qed.

End LeaveQueue.

(** ** The mention cache *)

Module MentionCache.
Import IrcHandler.

Lemma map_set_fresh {V} (m : JsMap V) k v :
  map_has m k = false -> map_set m k v = (m ++ [(k, v)])%list.
Proof.
  unfold map_has. induction m as [|[k' v'] m IH]; simpl; [reflexivity|].
  destruct (String.eqb k' k); [discriminate|].
  intros H. now rewrite IH.
Qed.

(** Deleting [iterator[0]] deletes nothing. *)
Lemma delete_first_key_is_noop {V} (m : JsMap V) :
  map_delete m (iterator_index (map_keys m) 0) = m.
Proof. reflexivity. Qed.

(** C9 (the cache is not bounded).  A message on a channel that is not in
    the cache, the cache being at or over its capacity: the new mapping is
    appended, the eviction removes nothing, and the cache ends one entry
    larger, above [NICK_USERID_CACHE_MAX]. *)
Theorem mention_cache_grows_past_capacity :
  forall (getMapping : IrcServer -> string -> JsMap string)
         (feature : string -> option bool) (mode : MentionMode)
         (server : IrcServer) (channel : string) (cache : JsMap (JsMap string)),
    mode <> mode_force_off ->
    map_has cache (cacheKey server channel) = false ->
    (NICK_USERID_CACHE_MAX <= map_size cache)%Z ->
    let cache' := snd (lookupMentions getMapping feature mode server channel cache) in
    cache' = (cache ++ [(cacheKey server channel,
                         computeMapping getMapping feature mode server channel)])%list
    /\ map_size cache' = (map_size cache + 1)%Z
    /\ (NICK_USERID_CACHE_MAX < map_size cache')%Z.
Proof.
  intros getMapping feature mode server channel cache Hmode Hmiss Hfull cache'.
  assert (Hc : cache' = (cache ++ [(cacheKey server channel,
                           computeMapping getMapping feature mode server channel)])%list).
  { subst cache'. unfold lookupMentions. rewrite Hmiss.
    destruct mode; try congruence; cbn [snd];
      rewrite delete_first_key_is_noop, map_set_fresh by assumption;
      now destruct (Z.ltb _ _). }
  split; [exact Hc|].
  assert (Hs : map_size cache' = (map_size cache + 1)%Z).
  { rewrite Hc. unfold map_size. rewrite length_app. cbn [List.length]. lia. }
  split; [exact Hs | lia].
Qed.

(** From an empty cache, one message on each of 513 channels leaves 513
    entries in the cache. *)
Lemma cache_holds_513_entries :
  map_size (cacheAfterMessages no_nicks no_feature mode_on example_server
                               (channel_names 513) [])
  = 513%Z.
Proof. vm_compute. reflexivity. Qed.

Lemma mention_cache_witness :
  let cache := cacheAfterMessages no_nicks no_feature mode_on example_server
                                  (channel_names 512) [] in
  mode_on <> mode_force_off
  /\ map_has cache (cacheKey example_server "#c512") = false
  /\ (NICK_USERID_CACHE_MAX <= map_size cache)%Z
  /\ map_size (snd (lookupMentions no_nicks no_feature mode_on example_server "#c512" cache))
     = 513%Z.
Proof.
  intros cache.
  assert (H1 : mode_on <> mode_force_off) by discriminate.
  assert (H2 : map_has cache (cacheKey example_server "#c512") = false)
    by (vm_compute; reflexivity).
  assert (H3 : (NICK_USERID_CACHE_MAX <= map_size cache)%Z)
    by (vm_compute; discriminate).
  split; [exact H1|]. split; [exact H2|]. split; [exact H3|].
  rewrite (proj1 (proj2 (mention_cache_grows_past_capacity
                           no_nicks no_feature mode_on example_server "#c512" cache
                           H1 H2 H3))).
  vm_compute. reflexivity.
Defined.

End MentionCache.

(** ** Topic propagation *)

Module Topics.
Import IrcHandler.















End Topics.

(** ** Private-message rooms *)

Module PmRooms.
Import IrcHandler.

(** The first contact of a pair without a promise creates the room and
    suspends on the new promise. *)
Lemma first_contact_creates m toUserId fromUserId w :
  pmRoomPromises w !! pmRoomPromiseId toUserId fromUserId = None ->
  firstContact m toUserId fromUserId w
  = ({| pmRoomPromises := <[pmRoomPromiseId toUserId fromUserId := List.length (promiseTable w)]>
                            (pmRoomPromises w);
        promiseTable := (promiseTable w ++ [pending])%list;
        awaiting := <[m := List.length (promiseTable w)]> (awaiting w) |},
     [createPmRoom_called toUserId fromUserId]).
Proof. intros Hp. unfold firstContact. now rewrite Hp. Qed.

(** With a promise stored for the pair, whatever its state, the guard
    throws: nothing is created, nothing is awaited. *)
Lemma stored_promise_throws m toUserId fromUserId i w :
  pmRoomPromises w !! pmRoomPromiseId toUserId fromUserId = Some i ->
  firstContact m toUserId fromUserId w = (w, [threw_TypeError m]).
Proof. intros Hp. unfold firstContact. now rewrite Hp. Qed.

Lemma same_pair_same_key t f toUserId fromUserId :
  String.eqb t toUserId && String.eqb f fromUserId = true ->
  pmRoomPromiseId t f = pmRoomPromiseId toUserId fromUserId.
Proof.
  intros H. apply andb_true_iff in H as [H1 H2].
  apply String.eqb_eq in H1, H2. now subst.
Qed.

Section Pair.
Variables (m2 : nat) (toUserId fromUserId : string).

#[local] Abbreviation key := (pmRoomPromiseId toUserId fromUserId).

#[local] Abbreviation pair_is_stuck := (pair_is_stuck m2 toUserId fromUserId).

(** One step of the event loop keeps that, creates no room for the pair,
    does not relay [m2], and ends a first contact of [m2] by the
    TypeError. *)
Lemma pmStep_stuck a w :
  pair_is_stuck w -> contacts_pair_only m2 toUserId fromUserId a = true ->
  pair_is_stuck (fst (pmStep a w))
  /\ creations toUserId fromUserId (snd (pmStep a w)) = 0%nat
  /\ (forall room, ~ In (relayed m2 room) (snd (pmStep a w)))
  /\ (a = do_firstContact m2 toUserId fromUserId ->
      In (threw_TypeError m2) (snd (pmStep a w))).
Proof.
  intros [[i Hkey] Hm2] Hpair.
  destruct a as [m t f | j result | m]; cbn [pmStep].
  - (* a handler reaches the guard *)
    destruct (pmRoomPromises w !! pmRoomPromiseId t f) as [j|] eqn:Hp.
    + rewrite (stored_promise_throws m t f j w Hp). cbn [fst snd].
      split; [split; eauto|]. split; [reflexivity|]. split.
      * intros room [H | []]. discriminate H.
      * intros [= -> _ _]. now left.
    + assert (Hne : pmRoomPromiseId t f <> key) by congruence.
      assert (Hother : String.eqb t toUserId && String.eqb f fromUserId = false).
      { destruct (String.eqb t toUserId && String.eqb f fromUserId) eqn:Hsame;
          [|reflexivity].
        apply same_pair_same_key in Hsame. contradiction. }
      assert (Hm : m <> m2).
      { cbn [contacts_pair_only] in Hpair. rewrite Hother, orb_false_r in Hpair.
        now apply negb_true_iff, Nat.eqb_neq in Hpair. }
      rewrite (first_contact_creates m t f w Hp). cbn [fst snd].
      split; [|split; [|split]].
      * split; cbn [pmRoomPromises awaiting].
        -- exists i. now rewrite lookup_insert_ne.
        -- now rewrite lookup_insert_ne.
      * unfold creations. cbn [List.filter is_createPmRoom]. now rewrite Hother.
      * intros room [H | []]. discriminate H.
      * intros [= _ -> ->]. rewrite !String.eqb_refl in Hother. discriminate.
  - (* a creation finishes *)
    cbn [fst snd]. split; [|split; [reflexivity|split; [intros ? []|discriminate]]].
    unfold settle. destruct (promiseTable w !! j) as [[| |]|]; split; eauto.
  - (* a suspended handler resumes *)
    unfold resume.
    destruct (awaiting w !! m) as [j|] eqn:Hj.
    + assert (Hm : m <> m2) by congruence.
      destruct (default pending (promiseTable w !! j)) as [|room|]; cbn [fst snd].
      * split; [split; eauto|]. split; [reflexivity|]. split; [intros ? []|discriminate].
      * split; [split; cbn [pmRoomPromises awaiting]; eauto;
                now rewrite lookup_delete_ne|].
        split; [reflexivity|]. split; [|discriminate].
        intros room' [[= E _] | []]. contradiction.
      * split; [split; cbn [pmRoomPromises awaiting]; eauto;
                now rewrite lookup_delete_ne|].
        split; [reflexivity|]. split; [|discriminate].
        intros room' [H | []]. discriminate H.
    + cbn [fst snd]. split; [split; eauto|]. split; [reflexivity|].
      split; [intros ? []|discriminate].
Qed.

(** A whole schedule of such steps. *)
Lemma pmRun_stuck schedule :
  forall w,
    pair_is_stuck w ->
    forallb (contacts_pair_only m2 toUserId fromUserId) schedule = true ->
    creations toUserId fromUserId (snd (pmRun schedule w)) = 0%nat
    /\ (forall room, ~ In (relayed m2 room) (snd (pmRun schedule w)))
    /\ (In (do_firstContact m2 toUserId fromUserId) schedule ->
        In (threw_TypeError m2) (snd (pmRun schedule w))).
Proof.
  induction schedule as [|a rest IH]; intros w Hstuck Hall.
  - cbn. split; [reflexivity|]. split; [intros ? []|intros []].
  - cbn [forallb] in Hall. apply andb_true_iff in Hall as [Ha Hrest].
    destruct (pmStep_stuck a w Hstuck Ha) as (Hstuck1 & Hnew1 & Hrel1 & Hthrow1).
    cbn [pmRun]. destruct (pmStep a w) as [w1 es1]. cbn [fst snd] in *.
    destruct (IH w1 Hstuck1 Hrest) as (Hnew2 & Hrel2 & Hthrow2).
    destruct (pmRun rest w1) as [w2 es2]. cbn [fst snd] in *.
    split; [|split].
    + unfold creations in *. rewrite List.filter_app, length_app. lia.
    + intros room Hin. apply in_app_or in Hin as [Hin | Hin];
        [exact (Hrel1 room Hin) | exact (Hrel2 room Hin)].
    + intros [Heq | Hin]; apply in_or_app; [left | right]; auto.
Qed.

End Pair.

(** C7, as the code has it.  A first-contact message [m1] of a pair without
    a promise creates the room and stores its promise.  From then on,
    whatever the state of that promise and whatever the event loop runs
    (other handlers, creations finishing, handlers resuming), a further
    first-contact message [m2] of the same pair does not await the stored
    promise: its handler ends at the guard with a TypeError.  So the run
    calls for a room of the pair exactly once, [m2] is never relayed into
    any room, and each first contact of [m2] in the schedule ends by the
    TypeError. *)
Theorem second_first_contact_is_never_relayed :
  forall (w : PmWorld) (m1 m2 : nat) (toUserId fromUserId : string)
         (schedule : list PmAction),
    pmRoomPromises w !! pmRoomPromiseId toUserId fromUserId = None ->
    awaiting w !! m2 = None ->
    m2 <> m1 ->
    forallb (contacts_pair_only m2 toUserId fromUserId) schedule = true ->
    let es := snd (pmRun (do_firstContact m1 toUserId fromUserId :: schedule) w) in
    (forall w' m i,
        pmRoomPromises w' !! pmRoomPromiseId toUserId fromUserId = Some i ->
        firstContact m toUserId fromUserId w' = (w', [threw_TypeError m]))
    /\ creations toUserId fromUserId es = 1%nat
    /\ (forall room, ~ In (relayed m2 room) es)
    /\ (In (do_firstContact m2 toUserId fromUserId) schedule ->
        In (threw_TypeError m2) es).
Proof.
  intros w m1 m2 toUserId fromUserId schedule Hnone Hm2 Hne Hall es.
  split; [intros w' m i; apply stored_promise_throws|].
  subst es. cbn [pmRun pmStep]. rewrite first_contact_creates by assumption.
  set (w1 := {| pmRoomPromises := _; promiseTable := _; awaiting := _ |}).
  assert (Hstuck : pair_is_stuck m2 toUserId fromUserId w1).
  { split; unfold w1; cbn [pmRoomPromises awaiting].
    - eexists. apply lookup_insert_eq.
    - rewrite lookup_insert_ne by congruence. exact Hm2. }
  destruct (pmRun_stuck m2 toUserId fromUserId schedule w1 Hstuck Hall)
    as (Hnew & Hrel & Hthrow).
  destruct (pmRun schedule w1) as [w2 es]. cbn [fst snd] in *.
  split; [|split].
  - unfold creations in *. cbn [app List.filter is_createPmRoom].
    rewrite !String.eqb_refl. cbn [andb List.length]. now rewrite Hnew.
  - intros room [H | H]; [discriminate H | exact (Hrel room H)].
  - intros Hin. right. exact (Hthrow Hin).
Qed.

Lemma second_first_contact_witness :
  let w := {| pmRoomPromises := ∅; promiseTable := []; awaiting := ∅ |} in
  let room := {| getId := "!pm:hs"; topic := None |} in
  let schedule := [do_firstContact 2 "@alice:hs" "@irc_bob:hs";
                   do_settle 0 (Some room); do_resume 1; do_resume 2] in
  In (threw_TypeError 2)
     (snd (pmRun (do_firstContact 1 "@alice:hs" "@irc_bob:hs" :: schedule) w))
  /\ snd (pmRun (do_firstContact 1 "@alice:hs" "@irc_bob:hs" :: schedule) w)
     = [createPmRoom_called "@alice:hs" "@irc_bob:hs"; threw_TypeError 2; relayed 1 room].
Proof.
  intros w room schedule. split.
  - refine (proj2 (proj2 (proj2
              (second_first_contact_is_never_relayed w 1 2 "@alice:hs" "@irc_bob:hs"
                 schedule eq_refl eq_refl _ eq_refl))) _).
    + discriminate.
    + now left.
  - vm_compute. reflexivity.
Defined.

End PmRooms.

(** * Further properties of the code *)

(** ** The membership queues *)

Module QueueFacts.

(** X1.  The lane a room is routed to is one of the
    [CONCURRENT_ROOM_LIMIT] lanes, in both queues, and both queues route a
    room to the same lane. *)
Theorem hashRoomId_is_a_lane :
  forall room : string,
    (0 <= MembershipQueue.hashRoomId room < MembershipQueue.CONCURRENT_ROOM_LIMIT)%Z
    /\ (0 <= MembershipQueueBridge.hashRoomId room
        < MembershipQueueBridge.CONCURRENT_ROOM_LIMIT)%Z
    /\ MembershipQueue.hashRoomId room = MembershipQueueBridge.hashRoomId room.
Proof.
  intros room.
  unfold MembershipQueue.hashRoomId, MembershipQueueBridge.hashRoomId,
    MembershipQueue.CONCURRENT_ROOM_LIMIT, MembershipQueueBridge.CONCURRENT_ROOM_LIMIT.
  repeat split; try apply Z.mod_pos_bound; lia.
Qed.

(** X2.  Whatever the homeserver answers, a join of the queue of
    src/util/MembershipQueue.ts is put back at most [ATTEMPTS_LIMIT] times,
    and its life ends within eleven runs: the last run is not a
    re-enqueue. *)
Theorem join_retries_are_bounded :
  forall (env : nat -> MembershipQueue.Call -> Response) (room : string)
         (user : option string) (retry : bool),
    let runs := MembershipQueue.lifecycle 11 0 env (MembershipQueue.join room user retry) in
    (MembershipQueue.requeues runs <= 10)%nat
    /\ exists before last,
         runs = (before ++ [last])%list /\ MembershipQueue.is_requeued last = false.
Proof.
  intros env room user retry runs. subst runs.
  assert (H : (0 <= MembershipQueue.attempts (MembershipQueue.join room user retry)
               <= MembershipQueue.ATTEMPTS_LIMIT)%Z)
    by (cbn; unfold MembershipQueue.ATTEMPTS_LIMIT; lia).
  split.
  - pose proof (RetryCeiling.requeues_bounded env 11 0 _ H) as Hb.
    cbn [MembershipQueue.attempts MembershipQueue.join] in Hb.
    unfold MembershipQueue.ATTEMPTS_LIMIT in Hb. lia.
  - apply RetryCeiling.lifecycle_ends; [exact H|].
    cbn. unfold MembershipQueue.ATTEMPTS_LIMIT. lia.
Qed.

(** X3.  In the queue of src/util/MembershipQueue.ts the promise of a leave
    or kick is not awaited: whatever the homeserver answers, the run ends
    normally, so a failed leave is neither retried nor reported. *)
Theorem failed_leave_is_dropped :
  forall (respond : MembershipQueue.Call -> Response) (room user : string)
         (retry : bool) (why kick : option string),
    let run := MembershipQueue.serviceQueue respond
                 (MembershipQueue.leave room user retry why kick) in
    MembershipQueue.awaited run = false
    /\ MembershipQueue.outcome run = MembershipQueue.Finished
    /\ MembershipQueue.lifecycle 11 0 (fun _ => respond)
         (MembershipQueue.leave room user retry why kick) = [run].
Proof.
  intros respond room user retry why kick run. subst run.
  destruct (RetryCeiling.leave_is_never_requeued respond
              (MembershipQueue.leave room user retry why kick) eq_refl) as [H1 H2].
  split; [exact H2|]. split; [exact H1|].
  cbn [MembershipQueue.lifecycle]. now rewrite H1.
Qed.

(** X4.  A join rejected with errcode M_FORBIDDEN, or with HTTP status 403,
    is rethrown at once in both queues, whatever the attempt count and the
    rest of the error. *)
Theorem forbidden_join_is_rethrown :
  forall (room : string) (user : option string) (n : Z)
         (code : option string) (status : option Z),
    let forbidden := {| errcode := Some "M_FORBIDDEN"; httpStatus := status |} in
    let denied := {| errcode := code; httpStatus := Some 403 |} in
    let item := {| MembershipQueue.type := MembershipQueue.join_type;
                   MembershipQueue.kickUser := None; MembershipQueue.reason := None;
                   MembershipQueue.attempts := n; MembershipQueue.roomId := room;
                   MembershipQueue.userId := user; MembershipQueue.retry := true |} in
    let item' := {| MembershipQueueBridge.type := MembershipQueueBridge.join_type;
                    MembershipQueueBridge.kickUser := None;
                    MembershipQueueBridge.reason := None;
                    MembershipQueueBridge.attempts := n;
                    MembershipQueueBridge.roomId := room;
                    MembershipQueueBridge.userId := user;
                    MembershipQueueBridge.retry := true |} in
    MembershipQueue.outcome (MembershipQueue.serviceQueue (fun _ => Rejected forbidden) item)
    = MembershipQueue.Rethrown forbidden
    /\ MembershipQueue.outcome (MembershipQueue.serviceQueue (fun _ => Rejected denied) item)
       = MembershipQueue.Rethrown denied
    /\ MembershipQueueBridge.outcome
         (MembershipQueueBridge.serviceQueue (fun _ => Rejected forbidden) item')
       = MembershipQueueBridge.Rethrown forbidden
    /\ MembershipQueueBridge.outcome
         (MembershipQueueBridge.serviceQueue (fun _ => Rejected denied) item')
       = MembershipQueueBridge.Rethrown denied.
Proof.
  intros room user n code status forbidden denied item item'.
  destruct (RetryCeiling.forbidden_join_is_given_up forbidden room user n
              (or_introl eq_refl)) as [H1 H2].
  destruct (RetryCeiling.forbidden_join_is_given_up denied room user n
              (or_intror eq_refl)) as [H3 H4].
  repeat split; assumption.
Qed.

Section BotSdk.
Import MembershipQueue.

Lemma join_above_limit_run env item ex :
  type item = join_type ->
  (ATTEMPTS_LIMIT < attempts item)%Z ->
  (forall c, env c = Rejected ex) ->
  errcode_is_forbidden ex = false -> httpStatus_is ex 403 = false ->
  exists next,
    outcome (serviceQueue env item) = Requeued next
    /\ type next = join_type /\ attempts next = (attempts item + 1)%Z.
Proof.
  intros Hty Hatt Henv Hf Hs. unfold serviceQueue. rewrite Hty. cbn [outcome].
  rewrite Henv. unfold onFailure, shouldRetry. rewrite Hf, Hs.
  assert (Z.eqb (attempts item) ATTEMPTS_LIMIT = false) as -> by (apply Z.eqb_neq; lia).
  cbn. eexists. split; [reflexivity|]. cbn. now split.
Qed.

(** X5.  The limit is tested with [===]: a join enqueued through
    [queueMembership] with an attempt count already above
    [ATTEMPTS_LIMIT], and failing with a transient error every time, is
    put back after every run. *)
Theorem join_above_limit_is_retried_forever :
  forall (n : nat) (item : QueueUserItem),
    type item = join_type ->
    (ATTEMPTS_LIMIT < attempts item)%Z ->
    let runs := lifecycle n 0 (fun _ _ => Rejected transient_error) item in
    List.length runs = n /\ requeues runs = n.
Proof.
  intros n item Hty Hatt. cbv zeta. generalize 0%nat as k. revert item Hty Hatt.
  induction n as [|n IH]; intros item Hty Hatt k; [now split|].
  destruct (join_above_limit_run (fun _ => Rejected transient_error) item
              transient_error Hty Hatt (fun _ => eq_refl) eq_refl eq_refl)
    as (next & Hout & Hty' & Hatt').
  cbn [lifecycle]. rewrite Hout.
  destruct (IH next Hty' ltac:(lia) (S k)) as [Hlen Hreq].
  unfold requeues in *. cbn [List.length List.filter].
  unfold is_requeued at 1. rewrite Hout. cbn [List.length]. now rewrite Hlen, Hreq.
Qed.

Lemma join_above_limit_witness :
  let item := {| type := join_type; kickUser := None; reason := None; attempts := 11;
                 roomId := "!room:hs"; userId := None; retry := true |} in
  type item = join_type
  /\ (ATTEMPTS_LIMIT < attempts item)%Z
  /\ requeues (lifecycle 40 0 (fun _ _ => Rejected transient_error) item) = 40%nat.
Proof.
  intros item.
  assert (H1 : type item = join_type) by reflexivity.
  assert (H2 : (ATTEMPTS_LIMIT < attempts item)%Z) by reflexivity.
  split; [exact H1|]. split; [exact H2|].
  exact (proj2 (join_above_limit_is_retried_forever 40 item H1 H2)).
Defined.
End BotSdk.

(** X6.  The [retry] flag of an item is never read, in either queue:
    changing it changes neither the call that is made nor how the run ends,
    except that the flag is carried along in the item put back.  So an item
    enqueued with [retry = false] is retried like any other. *)
Theorem retry_flag_is_ignored :
  forall (b : bool),
    (forall respond item,
        MembershipQueue.call (MembershipQueue.serviceQueue respond
                                (MembershipQueue.with_retry b item))
        = MembershipQueue.call (MembershipQueue.serviceQueue respond item)
        /\ MembershipQueue.outcome (MembershipQueue.serviceQueue respond
                                      (MembershipQueue.with_retry b item))
           = MembershipQueue.map_requeued (MembershipQueue.with_retry b)
               (MembershipQueue.outcome (MembershipQueue.serviceQueue respond item)))
    /\ (forall respond item,
           MembershipQueueBridge.call (MembershipQueueBridge.serviceQueue respond
                                         (MembershipQueueBridge.with_retry b item))
           = MembershipQueueBridge.call (MembershipQueueBridge.serviceQueue respond item)
           /\ MembershipQueueBridge.outcome
                (MembershipQueueBridge.serviceQueue respond
                   (MembershipQueueBridge.with_retry b item))
              = MembershipQueueBridge.map_requeued (MembershipQueueBridge.with_retry b)
                  (MembershipQueueBridge.outcome
                     (MembershipQueueBridge.serviceQueue respond item))).
Proof.
  intros b. split; intros respond item.
  - unfold MembershipQueue.serviceQueue, MembershipQueue.onFailure. cbn.
    destruct (MembershipQueue.type item); cbn.
    + split; [reflexivity|]. destruct (respond _); [reflexivity|].
      now destruct (MembershipQueue.shouldRetry ex (MembershipQueue.attempts item)).
    + now destruct (truthy (MembershipQueue.kickUser item)).
  - unfold MembershipQueueBridge.serviceQueue, MembershipQueueBridge.onFailure. cbn.
    split; [reflexivity|]. destruct (respond _); [reflexivity|].
    now destruct (MembershipQueueBridge.shouldRetry ex
                    (MembershipQueueBridge.attempts item)).
Qed.

End QueueFacts.

(** ** The visibility syncer, further *)

Module SyncerFacts.
Import PublicitySyncer.

(** What [solveAndCatch] leaves alone. *)
Lemma solveAndCatch_is_quiet respond channel server w :
  let w' := solveAndCatch respond channel server w in
  List.filter is_visibility_write (effects w') = List.filter is_visibility_write (effects w)
  /\ store w' = store w
  /\ channelIsSecret (vmap w') = channelIsSecret (vmap w)
  /\ roomVisibilities (vmap w') = roomVisibilities (vmap w).
Proof.
  cbv zeta. unfold solveAndCatch. rewrite Publicity.solveVisibility_runs.
  assert (H : List.filter is_visibility_write (effects (solving channel server w))
              = List.filter is_visibility_write (effects w)
              /\ store (solving channel server w) = store w
              /\ channelIsSecret (vmap (solving channel server w)) = channelIsSecret (vmap w)
              /\ roomVisibilities (vmap (solving channel server w))
                 = roomVisibilities (vmap w)).
  { unfold solving. cbn [emit set_vmap effects store vmap].
    match goal with
    | |- context [fold_left ?f ?l ?m0] =>
        destruct (Publicity.push_rooms_keeps
                    (getIRCVisMapKey (networkId server) channel) l m0) as (_ & H2 & H3)
    end.
    rewrite List.filter_app. cbn [List.filter is_visibility_write].
    rewrite app_nil_r. repeat split; assumption. }
  destruct H as (H1 & H2 & H3 & H4).
  destruct (getMatrixRoomsForChannel (store w) server channel);
    cbn [emit effects store vmap]; [repeat split; assumption|].
  rewrite List.filter_app. cbn [List.filter is_visibility_write].
  rewrite app_nil_r. repeat split; assumption.
Qed.

(** X7.  Whatever it is called with, [updateVisibilityMap] issues no
    directory-visibility update and no store write, and leaves the store as
    it was: the only path to those writes is the per-room task, which
    cannot run. *)
Theorem updateVisibilityMap_never_writes :
  forall (respond : Effect -> Response) (isMode : bool) (key : string) (value : Value)
         (channel : string) (server : IrcServer) (w : World),
    let w' := snd (updateVisibilityMap respond isMode key value channel server w) in
    List.filter is_visibility_write (effects w') = List.filter is_visibility_write (effects w)
    /\ store w' = store w.
Proof.
  intros respond isMode key value channel server w. cbv zeta.
  unfold updateVisibilityMap.
  destruct isMode, value as [b | s]; cbn [snd]; try (now split).
  - destruct (match channelIsSecret (vmap w) !! key with
              | Some old => Bool.eqb old b | None => false end); cbn [snd]; [now split|].
    match goal with
    | |- context [solveAndCatch respond channel server ?w0] =>
        destruct (solveAndCatch_is_quiet respond channel server w0) as (H1 & H2 & _)
    end.
    now split.
  - destruct (visibilityOfString s) as [v|]; cbn [snd]; [|now split].
    destruct (match roomVisibilities (vmap w) !! key with
              | Some old => Visibility_eqb old v | None => false end); cbn [snd]; [now split|].
    match goal with
    | |- context [solveAndCatch respond channel server ?w0] =>
        destruct (solveAndCatch_is_quiet respond channel server w0) as (H1 & H2 & _)
    end.
    now split.
Qed.





Lemma push_rooms_appends key rooms_ :
  forall m,
    networkToRooms (fold_left (fun m room => pushNetworkToRooms key room m) rooms_ m) !! key
    = match rooms_ with
      | [] => networkToRooms m !! key
      | _ :: _ => Some (default [] (networkToRooms m !! key) ++ rooms_)%list
      end.
Proof.
  induction rooms_ as [|r rs IH]; intros m; [reflexivity|].
  cbn [fold_left]. rewrite IH. cbn [pushNetworkToRooms networkToRooms].
  rewrite lookup_insert_eq. destruct rs; [reflexivity|].
  cbn. now rewrite <- app_assoc.
Qed.

(** X9.  Every run of [solveVisibility] pushes the rooms of the channel on
    [networkToRooms[key]] again: after two runs the list ends with the
    rooms twice. *)
Theorem networkToRooms_collects_duplicates :
  forall (respond : Effect -> Response) (channel : string) (server : IrcServer) (w : World),
    getMatrixRoomsForChannel (store w) server channel <> [] ->
    let key := getIRCVisMapKey (networkId server) channel in
    let roomIds := getMatrixRoomsForChannel (store w) server channel in
    let before := default [] (networkToRooms (vmap w) !! key) in
    let w1 := snd (solveVisibility respond channel server w) in
    let w2 := snd (solveVisibility respond channel server w1) in
    networkToRooms (vmap w1) !! key = Some (before ++ roomIds)%list
    /\ networkToRooms (vmap w2) !! key = Some (before ++ roomIds ++ roomIds)%list.
Proof.
  intros respond channel server w Hne key roomIds before w1 w2.
  assert (Hrun : forall w0,
             getMatrixRoomsForChannel (store w0) server channel = roomIds ->
             networkToRooms (vmap (snd (solveVisibility respond channel server w0))) !! key
             = Some (default [] (networkToRooms (vmap w0) !! key) ++ roomIds)%list
             /\ store (snd (solveVisibility respond channel server w0)) = store w0).
  { intros w0 H0. rewrite Publicity.solveVisibility_runs. cbn [snd]. unfold solving.
    cbn [emit set_vmap vmap store]. rewrite H0. fold key. rewrite push_rooms_appends.
    cbn [networkToRooms]. unfold roomIds in *.
    destruct (getMatrixRoomsForChannel (store w) server channel); [congruence|].
    now split. }
  destruct (Hrun w eq_refl) as [H1 Hs1]. fold w1 in H1, Hs1.
  split; [exact H1|].
  destruct (Hrun w1) as [H2 _]; [now rewrite Hs1|].
  fold w2 in H2. rewrite H2, H1. cbn. now rewrite <- app_assoc.
Qed.

Lemma networkToRooms_witness :
  let w := fresh_world one_channel_store in
  getMatrixRoomsForChannel (store w) example_server "#secret" <> []
  /\ networkToRooms
       (vmap (snd (solveVisibility (fun _ => Resolved) "#secret" example_server
                     (snd (solveVisibility (fun _ => Resolved) "#secret" example_server w)))))
     !! "example #secret"
     = Some ["!room:hs"; "!room:hs"].
Proof.
  intros w.
  assert (H : getMatrixRoomsForChannel (store w) example_server "#secret" <> [])
    by (vm_compute; discriminate).
  split; [exact H|].
  exact (proj2 (networkToRooms_collects_duplicates
                  (fun _ => Resolved) "#secret" example_server w H)).
Defined.




Lemma js_set_from_spec l :
  forall seen,
    List.NoDup (js_set_from seen l)
    /\ forall x, In x (js_set_from seen l) <-> In x l /\ ~ In x seen.
Proof.
  induction l as [|y l IH]; intros seen; cbn [js_set_from].
  - split; [constructor | intros x; cbn; tauto].
  - destruct (existsb (String.eqb y) seen) eqn:Hy.
    + destruct (IH seen) as [Hnd Hin]. split; [exact Hnd|].
      apply existsb_exists in Hy as (z & Hz & Heq). apply String.eqb_eq in Heq. subst z.
      intros x. rewrite Hin. cbn. split; [tauto|].
      intros [[-> | H] Hn]; [contradiction | tauto].
    + destruct (IH (y :: seen)) as [Hnd Hin].
      assert (Hfresh : ~ In y seen).
      { intros Hs. assert (existsb (String.eqb y) seen = true); [|congruence].
        apply existsb_exists. exists y. split; [exact Hs | apply String.eqb_refl]. }
      split.
      * constructor; [|exact Hnd]. rewrite Hin. cbn. tauto.
      * intros x. cbn [In]. rewrite Hin. cbn [In]. split.
        -- intros [<- | [H1 H2]]; [tauto|]. split; [tauto|]. tauto.
        -- intros [[<- | H1] H2]; [tauto|].
           destruct (String.eqb_spec y x) as [->|Hne]; [tauto|]. right. tauto.
Qed.

(** X11.  [initModes] asks for the mode of every tracked channel exactly
    once, however often the store lists it, does so even when requests
    fail, and asks for nothing when the bot has no client. *)
Theorem initModes_asks_once_per_channel :
  forall (modeAnswer : string -> Response) (channels : list string),
    let asked := requested_modes (initModes true modeAnswer channels) in
    List.NoDup asked
    /\ (forall chan, In chan asked <-> In chan channels)
    /\ requested_modes (initModes false modeAnswer channels) = [].
Proof.
  intros modeAnswer channels asked.
  assert (Hasked : asked = js_set channels).
  { subst asked. unfold initModes. induction (js_set channels) as [|c l IH]; [reflexivity|].
    cbn [flat_map]. unfold requested_modes in *. rewrite flat_map_app, IH.
    unfold initModeForChannel. now destruct (modeAnswer c). }
  assert (Hnone : requested_modes (initModes false modeAnswer channels) = []).
  { unfold initModes. generalize (js_set channels). intros l.
    induction l as [|c l IH]; [reflexivity|].
    cbn [flat_map]. unfold requested_modes in *. now rewrite flat_map_app, IH. }
  rewrite Hasked. unfold js_set.
  destruct (js_set_from_spec channels []) as [Hnd Hin].
  split; [exact Hnd|]. split; [|exact Hnone].
  intros chan. rewrite Hin. cbn. tauto.
Qed.

End SyncerFacts.

(** ** The leave queue, further *)

Module LeaveFacts.
Import IrcHandler.

(** One iteration records its calls and log lines, never an event of the
    retry, and leaves the attempt count as it was. *)
Lemma leaveStep_no_retry env item room s :
  exists new,
    trace (snd (leaveStep env item room s)) = (trace s ++ new)%list
    /\ existsb is_retry_event new = false
    /\ attemptsNow (snd (leaveStep env item room s)) = attemptsNow s.
Proof.
  unfold leaveStep, request.
  destruct (env (calls_made s) _) as [|ex].
  - rewrite LeaveQueue.afterAttempt_throws. cbn [snd].
    destruct (deop item).
    + unfold request. destruct (env _ _);
        cbn [record trace attemptsNow]; rewrite <- ?app_assoc;
        eexists; split; reflexivity || (split; reflexivity).
    + cbn [record trace attemptsNow]. eexists. split; [reflexivity|]. split; reflexivity.
  - destruct (notRetrying item ex).
    + cbn [snd record trace attemptsNow]. rewrite <- app_assoc.
      eexists. split; [reflexivity|]. split; reflexivity.
    + rewrite LeaveQueue.afterAttempt_throws. cbn [snd record trace attemptsNow].
      eexists. split; [reflexivity|]. split; reflexivity.
Qed.

Lemma leaveLoop_no_retry env item todo :
  forall s, exists new,
    trace (snd (leaveLoop env item todo s)) = (trace s ++ new)%list
    /\ existsb is_retry_event new = false
    /\ attemptsNow (snd (leaveLoop env item todo s)) = attemptsNow s
    /\ (fst (leaveLoop env item todo s) = loop_finished
        \/ fst (leaveLoop env item todo s) = throw_TypeError).
Proof.
  induction todo as [|room rest IH]; intros s; cbn [leaveLoop].
  - exists []. rewrite app_nil_r. repeat split. now left.
  - destruct (leaveStep_no_retry env item room s) as (new1 & Ht1 & Hn1 & Ha1).
    destruct (leaveStep env item room s) as [[out|] s1] eqn:Hstep; cbn [fst snd] in *.
    + exists new1. repeat split; try assumption.
      right. eapply LeaveQueue.leaveStep_exit. exact Hstep.
    + destruct (IH s1) as (new2 & Ht2 & Hn2 & Ha2 & Hout).
      exists (new1 ++ new2)%list. rewrite Ht2, Ht1, <- app_assoc, Ha2, Ha1.
      repeat split; try assumption.
      rewrite existsb_app, Hn1, Hn2. reflexivity.
Qed.

(** X12.  [handleLeaveQueue] never retries: whatever the homeserver
    answers, a run waits for no delay, counts no attempt and puts nothing
    back on the queue.  It ends at the end of the loop or by the TypeError
    of [Promise.delay]. *)
Theorem leave_is_never_retried :
  forall (env : nat -> Call -> Response) (item : LeaveItem),
    let run := handleLeaveQueue env item in
    existsb is_retry_event (trace (snd run)) = false
    /\ enqueued_items (trace (snd run)) = []
    /\ attemptsNow (snd run) = default 0%Z (attempts item)
    /\ (fst run = loop_finished \/ fst run = throw_TypeError).
Proof.
  intros env item run. subst run. unfold handleLeaveQueue.
  destruct (leaveLoop_no_retry env item (rooms item)
              {| retryRooms := []; attemptsNow := default 0%Z (attempts item);
                 trace := [] |}) as (new & Ht & Hn & Ha & Hout).
  rewrite Ht, Ha. cbn [trace app attemptsNow].
  split; [exact Hn|]. split; [|split; [reflexivity | exact Hout]].
  clear -Hn. induction new as [|e new IH]; [reflexivity|].
  cbn [existsb] in Hn. apply orb_false_iff in Hn as [He Hn].
  destruct e; try discriminate; cbn; now apply IH.
Qed.

(** X13.  The first room whose membership call is not a failure for good
    ends the run: when that is the first room of the item, the calls of the
    run are those for that room, the run ends by the TypeError, and the
    rooms behind it get no call. *)
Theorem leave_stops_at_first_room :
  forall (env : nat -> Call -> Response) (item : LeaveItem)
         (room : MatrixRoom) (rest : list MatrixRoom),
    rooms item = room :: rest ->
    (forall ex, env 0%nat (membership_call item (getId room)) = Rejected ex ->
                notRetrying item ex = false) ->
    let run := handleLeaveQueue env item in
    fst run = throw_TypeError
    /\ calls_of (trace (snd run))
       = match env 0%nat (membership_call item (getId room)) with
         | Resolved => calls_for item room
         | Rejected _ => [membership_call item (getId room)]
         end
    /\ retryRooms (snd run)
       = match env 0%nat (membership_call item (getId room)) with
         | Resolved => []
         | Rejected _ => [room]
         end.
Proof.
  intros env item room rest Hrooms Hretry run. subst run.
  unfold handleLeaveQueue. rewrite Hrooms. cbn [leaveLoop].
  set (s0 := {| retryRooms := []; attemptsNow := _; trace := [] |}).
  unfold leaveStep, request, calls_for. fold (membership_call item (getId room)).
  change (calls_made s0) with 0%nat.
  destruct (env 0%nat (membership_call item (getId room))) as [|ex] eqn:Hfirst.
  - rewrite LeaveQueue.afterAttempt_throws. cbn [fst snd].
    destruct (deop item).
    + unfold request. destruct (env _ (removePowerLevels _ _)); repeat split.
    + repeat split.
  - rewrite (Hretry ex eq_refl), LeaveQueue.afterAttempt_throws. repeat split.
Qed.

Lemma leave_stops_at_first_room_witness :
  let room (n : nat) := {| getId := "!room" ++ pretty n; topic := None |} in
  let item := {| id := None; rooms := map room (seq 0 3); userId := "@irc_bob:hs";
                 shouldKick := false; kickReason := None; retry := true; deop := false;
                 attempts := None |} in
  calls_of (trace (snd (handleLeaveQueue always_resolved item)))
  = [intent_leave (Some "@irc_bob:hs") "!room0"]
  /\ fst (handleLeaveQueue always_resolved item) = throw_TypeError.
Proof.
  intros room item.
  destruct (leave_stops_at_first_room always_resolved item (room 0%nat)
              (map room (seq 1 2)) eq_refl) as (Hout & Hcalls & _).
  - discriminate.
  - split; [exact Hcalls | exact Hout].
Defined.




(** X15.  What [onPart] puts on the leave queue: the rooms mapped to the
    channel (at least one), to be retried, with the kick flag set exactly
    for a virtual user, which can only happen for kind "part".  Served
    by [handleLeaveQueue], the item of a Matrix user's IRC client makes the
    bot kick that Matrix user with the reason "Client PARTed from channel";
    the item of a real IRC user makes its Matrix user leave and lose its
    power levels. *)
Theorem part_is_bridged_as_kick_or_leave :
  forall (shouldSync : IrcServer -> string -> string -> bool)
         (getRooms : IrcServer -> string -> list MatrixRoom)
         (getClient : IrcServer -> string -> option BridgedClient)
         (inChan : BridgedClient -> string -> bool)
         (getUser : IrcUser -> string)
         (debounces : IrcServer -> bool)
         (debounce : IrcServer -> string -> string -> bool)
         (server : IrcServer) (leavingUser : IrcUser) (chan kind key : string)
         (item : LeaveItem) (env : nat -> Call -> Response),
    onPart shouldSync getRooms getClient inChan getUser debounces debounce
           server leavingUser chan kind
    = part_enqueued key item ->
    let calls := calls_of (trace (snd (handleLeaveQueue env item))) in
    rooms item = getRooms server chan /\ rooms item <> [] /\ retry item = true
    /\ shouldKick item = isVirtual leavingUser
    /\ (isVirtual leavingUser = true ->
        kind = "part"
        /\ (exists client, getClient server (nick leavingUser) = Some client
                           /\ inChan client chan = true
                           /\ userId item = clientUserId client)
        /\ Forall (fun c => exists room,
                       c = intent_kick None room (userId item)
                                       (Some "Client PARTed from channel")) calls)
    /\ (isVirtual leavingUser = false ->
        userId item = getUser leavingUser
        /\ Forall (fun c => exists room,
                       c = intent_leave (Some (userId item)) room
                       \/ c = removePowerLevels room [userId item]) calls).
Proof.
  intros shouldSync getRooms getClient inChan getUser debounces debounce
         server leavingUser chan kind key item env Hpart calls.
  assert (Hcalls : forall c, In c calls ->
            (exists room, c = membership_call item room)
            \/ (deop item = true /\ exists room, c = removePowerLevels room [userId item]))
    by (intros c; apply LeaveQueue.calls_of_item).
  unfold onPart in Hpart.
  destruct (shouldSync server "incremental" chan); cbn [negb] in Hpart; [|discriminate].
  destruct (getRooms server chan) as [|r rs] eqn:Hrooms; cbn in Hpart; [discriminate|].
  destruct (isVirtual leavingUser) eqn:Hv; cbn [andb negb] in Hpart.
  - destruct (String.eqb_spec kind "part") as [Hk | Hk]; cbn [negb] in Hpart;
      [|discriminate].
    destruct (getClient server (nick leavingUser)) as [client|] eqn:Hcl; [|discriminate].
    destruct (inChan client chan) eqn:Hin; cbn [negb] in Hpart; [|discriminate].
    destruct (_ && _ && _) in Hpart; [discriminate|]. injection Hpart as _ <-.
    unfold membership_call in Hcalls. cbn in Hcalls |- *.
    repeat split; try discriminate; try assumption.
    + now exists client.
    + apply Forall_forall. intros c Hc. apply list_elem_of_In in Hc.
      destruct (Hcalls c Hc) as [Hm | [Hm _]]; [exact Hm | discriminate].
  - destruct (_ && _ && _) in Hpart; [discriminate|]. injection Hpart as _ <-.
    unfold membership_call in Hcalls. cbn in Hcalls |- *.
    repeat split; try discriminate.
    apply Forall_forall. intros c Hc. apply list_elem_of_In in Hc.
    destruct (Hcalls c Hc) as [(room & Hm) | [_ (room & Hm)]]; exists room; auto.
Qed.

Lemma part_witness :
  let user := {| nick := "bob"; isVirtual := false |} in
  let item := {| id := Some "#chanbob"; rooms := [ {| getId := "!room:hs"; topic := None |} ];
                 userId := "@irc_bob:hs"; shouldKick := false;
                 kickReason := Some "Client PARTed from channel"; retry := true;
                 deop := true; attempts := None |} in
  onPart (fun _ _ _ => true) example_rooms example_clients (fun _ _ => true)
         example_matrix_user (fun _ => false) (fun _ _ _ => true)
         example_server user "#chan" "part"
  = part_enqueued "#chanbob" item
  /\ shouldKick item = isVirtual user.
Proof.
  intros user item.
  assert (H : onPart (fun _ _ _ => true) example_rooms example_clients (fun _ _ => true)
                     example_matrix_user (fun _ => false) (fun _ _ _ => true)
                     example_server user "#chan" "part"
              = part_enqueued "#chanbob" item) by reflexivity.
  split; [exact H|].
  exact (proj1 (proj2 (proj2 (proj2
           (part_is_bridged_as_kick_or_leave _ _ _ _ _ _ _ _ _ _ _ _ _
              always_resolved H))))).
Defined.

(** X16.  The join retry of [onJoin] sends one join and no more: a join
    that goes through resolves it; a join that is refused rejects it, with
    the error of the join when [MAX_JOIN_ATTEMPTS] is negative, and with
    the TypeError of [Promise.delay] otherwise, whatever the number of
    attempts the server allows. *)
Theorem joinRetry_sends_one_join :
  forall (answer : nat -> Response) (MAX : Z) (fuel : nat),
    joinRetry (S fuel) answer MAX 0 0
    = (1%nat,
       match answer 0%nat with
       | Resolved => join_resolved
       | Rejected _ => if Z.ltb MAX 0 then join_rejected else join_TypeError
       end).
Proof.
  intros answer MAX fuel. cbn [joinRetry].
  destruct (answer 0%nat); [reflexivity|].
  destruct (Z.ltb_spec MAX 0) as [Hneg | Hpos].
  - assert (Z.eqb MAX 0 = false) as -> by (apply Z.eqb_neq; lia). reflexivity.
  - destruct (Z.eqb MAX 0); reflexivity.
Qed.

End LeaveFacts.

(** ** Topics, further *)

Module TopicFacts.
Import IrcHandler.



End TopicFacts.

(** ** The members of PM rooms *)

Module PmMembers.
Import IrcHandler.

(** X18.  When [ensureMatrixUserJoined] returns without throwing, the room
    is tracked with the membership join or invite.  For a room already
    tracked as joined or invited it makes no call and changes nothing; for
    a room tracked with another membership it makes exactly one call, the
    invite of the user by the virtual user. *)
Theorem ensured_member_is_joined_or_invited :
  forall (roomState : string -> option (list StateEvent))
         (invite : string -> string -> Response)
         (roomId userId virtUserId : string)
         (members members' : gmap string PrivateMember) (calls : list PmCall),
    ensureMatrixUserJoined roomState invite roomId userId virtUserId members
    = (members', calls, false) ->
    (exists priv, members' !! roomId = Some priv
                  /\ is_joined_or_invited (membership priv) = true)
    /\ (forall priv, members !! roomId = Some priv ->
          if is_joined_or_invited (membership priv)
          then calls = [] /\ members' = members
          else calls = [call_invite virtUserId roomId userId]).
Proof.
  intros roomState invite roomId userId virtUserId members members' calls.
  unfold ensureMatrixUserJoined.
  destruct (members !! roomId) as [priv|] eqn:Hpriv.
  - cbn iota beta.
    destruct (is_joined_or_invited (membership priv)) eqn:Hin.
    + intros [= <- <-]. split; [eauto|].
      intros priv' [= <-]. now rewrite Hin.
    + cbn [app]. destruct (invite roomId userId); [|discriminate].
      intros [= <- <-]. split.
      * eexists. split; [apply lookup_insert_eq | reflexivity].
      * intros priv' [= <-]. now rewrite Hin.
  - destruct (roomState roomId) as [stateEvents|]; [|discriminate].
    destruct (membershipInState stateEvents userId) as [m|] eqn:Hm; cbn iota beta.
    + cbn [membership]. destruct (is_joined_or_invited m) eqn:Hin.
      * intros [= <- <-]. split; [|discriminate].
        eexists. split; [apply lookup_insert_eq | exact Hin].
      * destruct (invite roomId userId); [|discriminate].
        intros [= <- <-]. split; [|discriminate].
        eexists. split; [apply lookup_insert_eq | reflexivity].
    + cbn [membership is_joined_or_invited].
      destruct (invite roomId userId); [|discriminate].
      intros [= <- <-]. split; [|discriminate].
      eexists. split; [apply lookup_insert_eq | reflexivity].
Qed.

Lemma ensured_member_witness :
  let members : gmap string PrivateMember :=
    {[ "!pm:hs" := {| sender := "@alice:hs"; membership := m_leave |} ]} in
  exists priv,
    fst (fst (ensureMatrixUserJoined (fun _ => None) (fun _ _ => Resolved)
                                     "!pm:hs" "@alice:hs" "@irc_bob:hs" members))
    !! "!pm:hs" = Some priv
    /\ is_joined_or_invited (membership priv) = true.
Proof.
  intros members.
  exact (proj1 (ensured_member_is_joined_or_invited
                  (fun _ => None) (fun _ _ => Resolved)
                  "!pm:hs" "@alice:hs" "@irc_bob:hs" members _ _ eq_refl)).
Defined.

(** X19.  A member event of the tracked user in a tracked PM room is taken
    over: once the user has left or was banned, the next private message
    makes the virtual user invite them again, with that one call; a member
    event of anybody else, or in a room that is not tracked, changes
    nothing. *)
Theorem left_member_is_invited_again :
  forall (roomState : string -> option (list StateEvent))
         (invite : string -> string -> Response)
         (roomId userId virtUserId other : string) (m : MatrixMembership)
         (members : gmap string PrivateMember) (priv : PrivateMember),
    members !! roomId = Some priv ->
    sender priv = userId ->
    is_joined_or_invited m = false ->
    snd (fst (ensureMatrixUserJoined roomState invite roomId userId virtUserId
                (onMatrixMemberEvent roomId userId m members)))
    = [call_invite virtUserId roomId userId]
    /\ (other <> userId -> onMatrixMemberEvent roomId other m members = members)
    /\ (forall room, members !! room = None ->
                     onMatrixMemberEvent room userId m members = members).
Proof.
  intros roomState invite roomId userId virtUserId other m members priv Hpriv Hsender Hm.
  split; [|split].
  - unfold onMatrixMemberEvent. rewrite Hpriv, Hsender, String.eqb_refl. cbn [negb].
    unfold ensureMatrixUserJoined. rewrite lookup_insert_eq. cbn iota beta.
    cbn [membership]. rewrite Hm. cbn [app].
    now destruct (invite roomId userId).
  - intros Hother. unfold onMatrixMemberEvent. rewrite Hpriv, Hsender.
    now apply not_eq_sym, String.eqb_neq in Hother as ->.
  - intros room Hnone. unfold onMatrixMemberEvent. now rewrite Hnone.
Qed.

Lemma left_member_witness :
  let members : gmap string PrivateMember :=
    {[ "!pm:hs" := {| sender := "@alice:hs"; membership := m_join |} ]} in
  snd (fst (ensureMatrixUserJoined (fun _ => None) (fun _ _ => Resolved)
              "!pm:hs" "@alice:hs" "@irc_bob:hs"
              (onMatrixMemberEvent "!pm:hs" "@alice:hs" m_leave members)))
  = [call_invite "@irc_bob:hs" "!pm:hs" "@alice:hs"].
Proof.
  intros members.
  exact (proj1 (left_member_is_invited_again
                  (fun _ => None) (fun _ _ => Resolved)
                  "!pm:hs" "@alice:hs" "@irc_bob:hs" "@carol:hs" m_leave members
                  {| sender := "@alice:hs"; membership := m_join |}
                  eq_refl eq_refl eq_refl)).
Defined.

End PmMembers.

(** ** Invalidating the mention cache *)

Module MentionInvalidation.
Import IrcHandler.

(** Deleting, one after the other, the keys of the entries of [l] that
    satisfy [P] leaves the entries whose key is none of those. *)
Lemma delete_matching_keys {V} (P : string * V -> bool) (l : JsMap V) :
  forall c : JsMap V,
    fold_left (fun c entry => if P entry then map_delete c (Some (fst entry)) else c) l c
    = List.filter (fun kv => negb (existsb (fun entry => P entry
                                                       && String.eqb (fst kv) (fst entry)) l))
                  c.
Proof.
  induction l as [|e l IH]; intros c; cbn [fold_left existsb].
  - cbn. induction c as [|kv c IHc]; [reflexivity|]. cbn. now rewrite <- IHc.
  - rewrite IH. destruct (P e) eqn:He; cbn [andb map_delete].
    + induction c as [|kv c IHc]; [reflexivity|]. cbn [List.filter].
      destruct (String.eqb (fst kv) (fst e)); cbn [negb orb].
      * exact IHc.
      * cbn [List.filter]. destruct (negb _); now rewrite IHc.
    + reflexivity.
Qed.

(** X20.  Unless mentions are forced off, [invalidateCachingForUserId]
    drops from the cache exactly the channels whose mapping names the user,
    keeps every other channel in its place, and reports true; when
    mentions are forced off it does nothing and reports false. *)
Theorem invalidation_drops_the_users_channels :
  forall (mode : MentionMode) (userId : string) (cache : JsMap (JsMap string)),
    List.NoDup (map fst cache) ->
    invalidateCachingForUserId mode userId cache
    = match mode with
      | mode_force_off => (false, cache)
      | _ => (true, List.filter (fun entry => negb (mentionsUser userId (snd entry))) cache)
      end.
Proof.
  intros mode userId cache Hnd.
  assert (H : fold_left (fun c entry => if mentionsUser userId (snd entry)
                                        then map_delete c (Some (fst entry)) else c)
                        cache cache
              = List.filter (fun entry => negb (mentionsUser userId (snd entry))) cache).
  { rewrite (delete_matching_keys (fun entry => mentionsUser userId (snd entry))).
    apply List.filter_ext_in. intros kv Hkv. f_equal.
    clear -Hnd Hkv. induction cache as [|e cache IH]; [destruct Hkv|].
    cbn [map] in Hnd. apply List.NoDup_cons_iff in Hnd as [Hfresh Hnd].
    cbn [existsb]. destruct Hkv as [-> | Hkv].
    - rewrite String.eqb_refl, andb_true_r.
      destruct (mentionsUser userId (snd kv)); [reflexivity|]. cbn [orb].
      apply not_true_is_false. intros Hex. apply existsb_exists in Hex as (e & He & Hpe).
      apply andb_true_iff in Hpe as [_ Heq]. apply String.eqb_eq in Heq.
      apply Hfresh. rewrite Heq. now apply in_map.
    - assert (Hne : String.eqb (fst kv) (fst e) = false).
      { apply String.eqb_neq. intros Heq. apply Hfresh. rewrite <- Heq. now apply in_map. }
      rewrite Hne, andb_false_r. cbn [orb]. now apply IH. }
  unfold invalidateCachingForUserId. destruct mode; now rewrite ?H.
Qed.

Lemma invalidation_witness :
  let cache : JsMap (JsMap string) :=
    [ ("irc.example.org:#a", [("alice", "@alice:hs")]);
      ("irc.example.org:#b", [("bob", "@bob:hs")]) ] in
  invalidateCachingForUserId mode_on "@alice:hs" cache
  = (true, [ ("irc.example.org:#b", [("bob", "@bob:hs")]) ]).
Proof.
  intros cache.
  refine (invalidation_drops_the_users_channels mode_on "@alice:hs" cache _).
  repeat constructor; cbn; intuition discriminate.
Defined.

End MentionInvalidation.

(** ** The call counters *)

Module CounterFacts.
Import IrcHandler.

Lemma increments_add (calls : list MetricNames) :
  forall (f0 : MetricNames -> Z),
  exists f,
    fold_left (fun c m => incrementMetric m c) calls (Some f0) = Some f
    /\ forall m, f m = (f0 m + Z.of_nat (List.length (List.filter (MetricNames_eqb m) calls)))%Z.
Proof.
  induction calls as [|c calls IH]; intros f0; cbn [fold_left incrementMetric].
  - exists f0. split; [reflexivity|]. intros m. cbn. lia.
  - destruct (IH (fun m => if MetricNames_eqb m c then (f0 m + 1)%Z else f0 m))
      as (f & -> & Hf).
    exists f. split; [reflexivity|]. intros m. rewrite Hf. cbn [List.filter].
    destruct (MetricNames_eqb m c); cbn [List.length]; lia.
Qed.

(** X21.  [getMetrics] hands out, for every name, the number of
    [incrementMetric] calls for that name since the previous [getMetrics],
    and starts the count again from zero. *)
Theorem metrics_count_since_last_dump :
  forall (counters : Metrics) (calls : list MetricNames),
    let counting := fold_left (fun c m => incrementMetric m c) calls
                              (snd (getMetrics counters)) in
    (exists f,
        fst (getMetrics counting) = Some f
        /\ forall m, f m = Z.of_nat (List.length (List.filter (MetricNames_eqb m) calls)))
    /\ exists zero, snd (getMetrics counting) = Some zero /\ forall m, zero m = 0%Z.
Proof.
  intros counters calls counting. subst counting. cbn [getMetrics fst snd].
  destruct (increments_add calls (fun _ => 0%Z)) as (f & -> & Hf).
  split.
  - exists f. split; [reflexivity|]. intros m. rewrite Hf. lia.
  - eexists. split; reflexivity.
Qed.

End CounterFacts.

(** ** The ident server *)

Module IdentFacts.
Import IdentSrv.

(** X22.  A user mapped to an outgoing port is named in the answer to an
    ident query for that port, at once, without waiting for pending
    connections. *)
Theorem mapped_port_is_answered :
  forall (portMappings : gmap string string) (username remotePort : string) (port : Z),
    (0 < port)%Z ->
    username <> "" ->
    tryRespond (setMapping username port portMappings) (portKey port) remotePort
    = (false, portKey port ++ "," ++ remotePort ++ ":USERID:UNIX:" ++ username ++ CRLF).
Proof.
  intros portMappings username remotePort port Hport Hname.
  unfold tryRespond, setMapping.
  assert (Z.ltb 0 port = true) as -> by now apply Z.ltb_lt.
  rewrite lookup_insert_eq. unfold respond. cbn [truthy].
  now apply String.eqb_neq in Hname as ->.
Qed.

Lemma mapped_port_witness :
  tryRespond (setMapping "alice" 50000 ∅) (portKey 50000) "6667"
  = (false, portKey 50000 ++ "," ++ "6667" ++ ":USERID:UNIX:" ++ "alice" ++ CRLF).
Proof.
  refine (mapped_port_is_answered ∅ "alice" "6667" 50000 _ _).
  - reflexivity.
  - discriminate.
Defined.

(** X23.  [setMapping(username, 0)] removes every port of the user and no
    port of anybody else; a negative port changes nothing. *)
Theorem port_zero_removes_the_user :
  forall (portMappings : gmap string string) (username : string),
    (forall port, setMapping username 0 portMappings !! port <> Some username)
    /\ (forall port other, other <> username ->
          portMappings !! port = Some other ->
          setMapping username 0 portMappings !! port = Some other)
    /\ (forall port, (port < 0)%Z -> setMapping username port portMappings = portMappings).
Proof.
  intros portMappings username. unfold setMapping. cbn [Z.ltb Z.eqb Z.compare].
  split; [|split].
  - intros port H. apply map_lookup_filter_Some in H as [_ H]. now apply H.
  - intros port other Hother H. apply map_lookup_filter_Some. split; [exact H | exact Hother].
  - intros port Hneg.
    assert (Z.ltb 0 port = false) as -> by (apply Z.ltb_ge; lia).
    assert (Z.eqb port 0 = false) as -> by (apply Z.eqb_neq; lia).
    reflexivity.
Qed.

End IdentFacts.
